(** * click-template: a chained command-line pipeline over tabular datasets

    Shallow embedding of [src/cli/app.py] and the properties of its
    specification.

    The program chains click subcommands ([read], [head], [filter], [to],
    [info], [print]).  Every subcommand is a Python generator function
    wrapped by the decorators [processor] and [generator]; the result
    callback [process_commands] folds the wrapped stages over the empty
    stream and drains the final stream.

    Modelling choices, all taken from the source:
    - Python [str] is [string]; [str.split] with a one-character separator
      is [split].
    - A Python [dict] with string keys is a [gmap string pyval].
    - An exception is a value of [exn]; a function that may raise returns a
      sum, or is a tree ending in [Raise].
    - A generator object is a finite tree of type [gen]: it stops, raises,
      yields an item and continues, or performs an external effect and
      continues with the answer.  Nothing of a generator runs before it is
      iterated, exactly as in Python.
    - The libraries the program calls (pandas, [ast.literal_eval],
      [os.path.isfile], [repr]) are the fields of the record [Externals];
      [os.path.splitext] is written out as posixpath defines it. *)

From Stdlib Require Import ZArith String Ascii List.
From stdpp Require Import gmap strings list.

Local Open Scope string_scope.
Local Open Scope Z_scope.

Set Warnings "-register-all".

(** ** Python strings *)

Module PyStr.

(** [s.split(sep)] for a separator of one character: the list of the
    maximal pieces between separators, never empty. *)
Fixpoint split (sep : ascii) (s : string) : list string :=
  match s with
  | EmptyString => [EmptyString]
  | String c r =>
      if Ascii.eqb c sep then EmptyString :: split sep r
      else match split sep r with
           | h :: t => String c h :: t
           | [] => [String c EmptyString]
           end
  end.

(** [sep.join(l)]. *)
Fixpoint join (sep : ascii) (l : list string) : string :=
  match l with
  | [] => EmptyString
  | [x] => x
  | x :: r => x +:+ String sep (join sep r)
  end.

(** [c in s]. *)
Fixpoint contains (c : ascii) (s : string) : bool :=
  match s with
  | EmptyString => false
  | String d r => Ascii.eqb d c || contains c r
  end.

(** [s.rfind(c)]: the last index of [c] in [s], or [-1]. *)
Fixpoint rfind_from (c : ascii) (s : string) (i : Z) (last : Z) : Z :=
  match s with
  | EmptyString => last
  | String d r => rfind_from c r (i + 1) (if Ascii.eqb d c then i else last)
  end.

Definition rfind (c : ascii) (s : string) : Z := rfind_from c s 0 (-1).

(** [s[i:j]] for [0 <= i <= j]. *)
Definition slice (s : string) (i j : Z) : string :=
  String.substring (Z.to_nat i) (Z.to_nat (j - i)) s.

Definition len (s : string) : Z := Z.of_nat (String.length s).

(** The newline that [print] and [click.echo] append. *)
Definition nl : string := String "010"%char EmptyString.

End PyStr.

(** ** [os.path.splitext] (posixpath)

    [genericpath._splitext(p, sep='/', altsep=None, extsep='.')]: the
    extension starts at the last dot of the last path component, unless that
    component has only dots before it. *)

Module OsPath.
Import PyStr.

(** The [while filenameIndex < dotIndex] loop: is there a character other
    than the dot in [p[filenameIndex:dotIndex]]? *)
Fixpoint scan (fuel : nat) (p : string) (filenameIndex dotIndex : Z) : bool :=
  match fuel with
  | O => false
  | S fuel' =>
      if filenameIndex <? dotIndex then
        if negb (String.eqb (slice p filenameIndex (filenameIndex + 1)) ".")
        then true
        else scan fuel' p (filenameIndex + 1) dotIndex
      else false
  end.

Definition splitext (p : string) : string * string :=
  let sepIndex := rfind "/" p in
  let dotIndex := rfind "." p in
  if (sepIndex <? dotIndex) && scan (String.length p) p (sepIndex + 1) dotIndex
  then (slice p 0 dotIndex, slice p dotIndex (len p))
  else (p, EmptyString).

End OsPath.

(** ** Exceptions and literal values *)

Inductive exn_class : Type :=
| FileNotFoundError
| KeyError
| IndexError
| TypeError
| AttributeError
| LibraryError (name : string).

(** An exception instance: its class and its single argument.  Every class
    here derives from [Exception], so [except Exception] catches them all. *)
Record exn : Type := mk_exn { exn_cls : exn_class; exn_arg : string }.

(** What [ast.literal_eval] can return.  Literals the program never looks
    into (floats, bytes, dicts, sets, ...) are kept by their source text. *)
Inductive pyval : Type :=
| VNone
| VBool (b : bool)
| VInt (z : Z)
| VStr (s : string)
| VTuple (l : list pyval)
| VList (l : list pyval)
| VOther (src : string).

(** Keyword arguments forwarded to pandas: a [dict] with [str] keys. *)
Abbreviation kwargs := (gmap string pyval).

Inductive reader : Type := pd_read_csv | pd_read_excel.
Inductive writer : Type := to_csv | to_excel.
Inductive channel : Type := Stdout | Stderr.

(** ** The libraries the program calls *)

Record Externals : Type := {
  (** a pandas DataFrame *)
  Dataset : Type;
  (** the state of the file system *)
  FS : Type;
  (** [ast.literal_eval(text)]; [None] when it raises *)
  literal_eval : string -> option pyval;
  (** [repr(s)] of a [str] *)
  repr_str : string -> string;
  (** [os.path.isfile(path)] *)
  isfile : FS -> string -> bool;
  (** [pd.read_csv(path, **kw)] and [pd.read_excel(path, **kw)] *)
  pd_read : reader -> FS -> string -> kwargs -> exn + Dataset;
  (** [df.to_csv(buf, **kw)] and [df.to_excel(buf, **kw)]: the file system
      afterwards, and the exception when the call raises *)
  df_to : writer -> FS -> Dataset -> string -> kwargs -> FS * option exn;
  (** [df.query(expression)] *)
  df_query : Dataset -> string -> exn + Dataset;
  (** [df.head(lines)] *)
  df_head : Dataset -> Z -> Dataset;
  (** [str(df)] under the pandas option [display.max_rows] *)
  df_str : Z -> Dataset -> string;
  (** the text [df.info()] writes to standard output *)
  df_info : Dataset -> string;
  (** [df.to_string(index=False)] *)
  df_to_string : Dataset -> string;
  (** [df.shape[0]] *)
  df_rows : Dataset -> Z
}.

(** ** The loose parameter parser *)

Section Parser.
Context (X : Externals).

Definition index_error : exn := mk_exn IndexError "list index out of range".

(** One turn of [for p in params]: [splitted[1]] is evaluated first (inside
    the [try]); when it is missing the handler evaluates it again and the
    [IndexError] leaves the function.  Otherwise the value is the literal,
    or the text itself when [literal_eval] raises. *)
Definition args_to_dict_step (params_asdict : kwargs) (p : string)
  : exn + kwargs :=
  let splitted := PyStr.split "=" p in
  match splitted !! 0%nat, splitted !! 1%nat with
  | Some key, Some text =>
      match literal_eval X text with
      | Some v => inr (<[key := v]> params_asdict)
      | None => inr (<[key := VStr text]> params_asdict)
      end
  | _, _ => inl index_error
  end.

Fixpoint args_to_dict_loop (params_asdict : kwargs) (ps : list string)
  : exn + kwargs :=
  match ps with
  | [] => inr params_asdict
  | p :: rest =>
      match args_to_dict_step params_asdict p with
      | inl e => inl e
      | inr d => args_to_dict_loop d rest
      end
  end.

Definition args_to_dict (arg : string) : exn + kwargs :=
  match arg with
  | EmptyString => inr ∅
  | _ => args_to_dict_loop ∅ (PyStr.split "|" arg)
  end.

End Parser.

(** ** Effects, calls and generators *)

Section Pipeline.
Context (X : Externals).
Import PyStr.

(** What flows through a stream: a DataFrame, or the [None] of a bare
    [yield]. *)
Inductive item : Type :=
| IDf (d : Dataset X)
| INone.

(** The calls into the outside world, indexed by the type of their
    answer. *)
Inductive eff : Type -> Type :=
| Write (c : channel) (text : string) : eff unit
| IsFile (path : string) : eff bool
| PdRead (r : reader) (path : string) (kw : kwargs) : eff (exn + Dataset X)
| DfTo (w : writer) (d : Dataset X) (buf : string) (kw : kwargs)
    : eff (option exn)
| DfStr (d : Dataset X) : eff string
| SetMaxRows (n : Z) : eff unit.

(** The body of an ordinary function call: it returns, raises, or performs
    an effect and goes on. *)
Inductive io (R : Type) : Type :=
| Ret (r : R)
| Raise (e : exn)
| Act {A : Type} (a : eff A) (k : A -> io R).

(** A generator object: the rest of a generator function's body. *)
Inductive gen : Type :=
| Stop
| GRaise (e : exn)
| Yield (y : item) (k : gen)
| GAct {A : Type} (a : eff A) (k : A -> gen).

Arguments Ret {R} r.
Arguments Raise {R} e.
Arguments Act {R A} a k.

(** The objects bound to the name [stream]: an iterable, or the [None] a
    function returns when it falls off its end. *)
Inductive pyobj : Type :=
| PyNone
| PyIter (g : gen).

Fixpoint bind {R S : Type} (m : io R) (f : R -> io S) : io S :=
  match m with
  | Ret r => f r
  | Raise e => Raise e
  | Act a k => Act a (fun x => bind (k x) f)
  end.

(** [try: m  except Exception as e: h e]. *)
Fixpoint try_except {R : Type} (m : io R) (h : exn -> io R) : io R :=
  match m with
  | Ret r => Ret r
  | Raise e => h e
  | Act a k => Act a (fun x => try_except (k x) h)
  end.

(** Two pieces of a generator body in sequence. *)
Fixpoint gseq (g1 g2 : gen) : gen :=
  match g1 with
  | Stop => g2
  | GRaise e => GRaise e
  | Yield y k => Yield y (gseq k g2)
  | GAct a k => GAct a (fun x => gseq (k x) g2)
  end.

(** An ordinary call made inside a generator body. *)
Fixpoint lift {R : Type} (m : io R) (f : R -> gen) : gen :=
  match m with
  | Ret r => f r
  | Raise e => GRaise e
  | Act a k => GAct a (fun x => lift (k x) f)
  end.

(** [for y in g: body y] inside a generator body. *)
Fixpoint for_gen (g : gen) (body : item -> gen) : gen :=
  match g with
  | Stop => Stop
  | GRaise e => GRaise e
  | Yield y k => gseq (body y) (for_gen k body)
  | GAct a k => GAct a (fun x => for_gen (k x) body)
  end.

(** [iter(o)]. *)
Definition not_iterable : exn :=
  mk_exn TypeError "'NoneType' object is not iterable".

Definition iter (o : pyobj) : exn + gen :=
  match o with
  | PyNone => inl not_iterable
  | PyIter g => inr g
  end.

Definition for_in (o : pyobj) (body : item -> gen) : gen :=
  match iter o with
  | inl e => GRaise e
  | inr g => for_gen g body
  end.

(** [yield from o]. *)
Definition yield_from (o : pyobj) : gen :=
  match iter o with
  | inl e => GRaise e
  | inr g => g
  end.

(** [for _ in o: pass] in an ordinary function. *)
Fixpoint drain_gen (g : gen) : io unit :=
  match g with
  | Stop => Ret tt
  | GRaise e => Raise e
  | Yield _ k => drain_gen k
  | GAct a k => Act a (fun x => drain_gen (k x))
  end.

Definition drain (o : pyobj) : io unit :=
  match iter o with
  | inl e => Raise e
  | inr g => drain_gen g
  end.

(** [str(e)]: the argument, except that a [KeyError] shows the [repr] of
    its key. *)
Definition str_exn (e : exn) : string :=
  match exn_cls e with
  | KeyError => repr_str X (exn_arg e)
  | _ => exn_arg e
  end.

(** ** The world the effects act on *)

Record World : Type := mk_world {
  fs : FS X;
  max_rows : Z;
  console : list (channel * string)
}.

Definition perform {A : Type} (a : eff A) (w : World) : World * A :=
  match a in eff T return World * T with
  | Write c text =>
      (mk_world (fs w) (max_rows w) (console w ++ [(c, text)]), tt)
  | IsFile path => (w, isfile X (fs w) path)
  | PdRead r path kw => (w, pd_read X r (fs w) path kw)
  | DfTo wr d buf kw =>
      let '(fs', r) := df_to X wr (fs w) d buf kw in
      (mk_world fs' (max_rows w) (console w), r)
  | DfStr d => (w, df_str X (max_rows w) d)
  | SetMaxRows n => (mk_world (fs w) n (console w), tt)
  end.

(** Running a call to its end. *)
Fixpoint run {R : Type} (m : io R) (w : World) : World * (exn + R) :=
  match m with
  | Ret r => (w, inr r)
  | Raise e => (w, inl e)
  | Act a k => let '(w', x) := perform a w in run (k x) w'
  end.

(** Iterating a generator to its end: the items it yields, in order, and
    the exception that ended it, if any. *)
Fixpoint collect (g : gen) (w : World) : World * list item * option exn :=
  match g with
  | Stop => (w, [], None)
  | GRaise e => (w, [], Some e)
  | Yield y k => let '(w', ys, r) := collect k w in (w', y :: ys, r)
  | GAct a k => let '(w', x) := perform a w in collect (k x) w'
  end.

(** Iterating a generator up to its first item. *)
Fixpoint first_item (g : gen) (w : World)
  : World * option item * option exn :=
  match g with
  | Stop => (w, None, None)
  | GRaise e => (w, None, Some e)
  | Yield y _ => (w, Some y, None)
  | GAct a k => let '(w', x) := perform a w in first_item (k x) w'
  end.

(** ** The stage adapters *)

(** [processor(f)] applied to the options and then to [stream]: the call
    of [f] is the only thing inside the [try]; the handler echoes to the
    error channel and falls off the end of the function, which returns
    [None]. *)
Definition processor {A : Type} (f : pyobj -> A -> io pyobj)
    (args : A) (stream : pyobj) : io pyobj :=
  try_except (f stream args)
    (fun e => Act (Write Stderr ("Error: " +:+ str_exn e +:+ nl))
                (fun _ => Ret PyNone)).

(** Calling a generator function runs nothing of its body: the call
    returns the generator object. *)
Definition genfun {A : Type} (body : pyobj -> A -> gen)
  : pyobj -> A -> io pyobj :=
  fun stream args => Ret (PyIter (body stream args)).

(** The generator function [new_func] inside [generator(f)]:
    [yield from stream], then [yield from f(...)] on the options. *)
Definition generator_new_func {A : Type} (f : A -> io pyobj)
    (stream : pyobj) (args : A) : gen :=
  gseq (yield_from stream) (lift (f args) yield_from).

Definition generator {A : Type} (f : A -> io pyobj)
  : A -> pyobj -> io pyobj :=
  processor (genfun (generator_new_func f)).

(** ** The pipeline composer *)

Definition stage : Type := pyobj -> io pyobj.

(** [for processor in processors: stream = processor(stream)]. *)
Fixpoint pipe (processors : list stage) (stream : pyobj) : io pyobj :=
  match processors with
  | [] => Ret stream
  | p :: rest => bind (p stream) (pipe rest)
  end.

(** [stream = ()], the loop over the processors, then the draining loop. *)
Definition process_commands (processors : list stage) : io unit :=
  bind (pipe processors (PyIter Stop)) drain.

(** ** The stage library *)

Definition CONFIG_read_functions : gmap string reader :=
  {[ ".csv" := pd_read_csv; ".xlsx" := pd_read_excel ]}.

Definition CONFIG_to_functions : gmap string writer :=
  {[ ".csv" := to_csv; ".xlsx" := to_excel ]}.

(** [args_to_dict(params) if params else {}]. *)
Definition pd_params_of (params : string) : exn + kwargs :=
  match params with
  | EmptyString => inr ∅
  | _ => args_to_dict X params
  end.

(** An attribute looked up on a stream item that is [None]. *)
Definition no_attribute (name : string) : exn :=
  mk_exn AttributeError
    ("'NoneType' object has no attribute '" +:+ name +:+ "'").

(** [FileNotFoundError(f"{filename} not found.")]. *)
Definition file_not_found (filename : string) : exn :=
  mk_exn FileNotFoundError (filename +:+ " not found.").

Definition read_cmd_body (filename params : string) : gen :=
  GAct (IsFile filename) (fun exists_ =>
    if negb exists_
    then GRaise (file_not_found filename)
    else
      GAct (IsFile filename) (fun exists_again =>
        if exists_again then
          let '(fname, fextension) := OsPath.splitext filename in
          match pd_params_of params with
          | inl e => GRaise e
          | inr pd_params =>
              match CONFIG_read_functions !! fextension with
              | None => GRaise (mk_exn KeyError fextension)
              | Some r =>
                  GAct (PdRead r filename pd_params) (fun res =>
                    match res with
                    | inl e => GRaise e
                    | inr df => Yield (IDf df) Stop
                    end)
              end
          end
        else Stop)).

(** [read_cmd] is a generator function of [(filename, params)]. *)
Definition read_cmd (args : string * string) : io pyobj :=
  Ret (PyIter (read_cmd_body (fst args) (snd args))).

(** The body of [for df in dfs] in [head_cmd]. *)
Definition head_body (lines : Z) (df : item) : gen :=
  match df with
  | INone => GRaise (no_attribute "head")
  | IDf d =>
      GAct (DfStr (df_head X d lines)) (fun text =>
        GAct (Write Stdout (text +:+ nl)) (fun _ => Yield INone Stop))
  end.

Definition head_cmd (dfs : pyobj) (lines : Z) : gen :=
  for_in dfs (head_body lines).

(** The body of the loop in [filter_cmd]: [df.query], [print], [yield]. *)
Definition filter_body (expression : string) (df : item) : gen :=
  match df with
  | INone => GRaise (no_attribute "query")
  | IDf d =>
      match df_query X d expression with
      | inl e => GRaise e
      | inr df' =>
          GAct (DfStr df') (fun text =>
            GAct (Write Stdout (text +:+ nl)) (fun _ =>
              Yield (IDf df') Stop))
      end
  end.

Definition filter_cmd (dfs : pyobj) (expression : string) : gen :=
  for_in dfs (filter_body expression).

(** [to_func(df, buf=filename, **pd_params)] with [to_func] one of the
    lambdas of [CONFIG]: a key [buf] among the loose parameters clashes
    with the keyword (the wording of this [TypeError] depends on the
    interpreter). *)
Definition call_to_func (w : writer) (df : item) (filename : string)
    (pd_params : kwargs) (k : gen) : gen :=
  match pd_params !! "buf" with
  | Some _ =>
      GRaise (mk_exn TypeError
                "got multiple values for keyword argument 'buf'")
  | None =>
      match df with
      | INone =>
          GRaise (no_attribute
                    match w with to_csv => "to_csv" | to_excel => "to_excel" end)
      | IDf d =>
          GAct (DfTo w d filename pd_params) (fun r =>
            match r with
            | Some e => GRaise e
            | None => k
            end)
      end
  end.

(** The body of the loop in [to_cmd].  [--filename] of [to] is not
    required: click passes [None] when it is absent, and
    [os.path.splitext(None)] raises. *)
Definition to_body (args : option string * string) (df : item) : gen :=
  match fst args with
  | None =>
      GRaise (mk_exn TypeError
                "expected str, bytes or os.PathLike object, not NoneType")
  | Some filename =>
      let '(fname, fextension) := OsPath.splitext filename in
      match CONFIG_to_functions !! fextension with
      | None => GRaise (mk_exn KeyError fextension)
      | Some to_func =>
          match pd_params_of (snd args) with
          | inl e => GRaise e
          | inr pd_params =>
              call_to_func to_func df filename pd_params (Yield INone Stop)
          end
      end
  end.

Definition to_cmd (dfs : pyobj) (args : option string * string) : gen :=
  for_in dfs (to_body args).

(** The body of the loop in [info_cmd]: [df.info()] writes its text itself
    and returns [None]; [click.echo] of [None] writes the newline alone. *)
Definition info_body (df : item) : gen :=
  match df with
  | INone => GRaise (no_attribute "info")
  | IDf d =>
      GAct (Write Stdout (df_info X d)) (fun _ =>
        GAct (Write Stdout nl) (fun _ => Yield INone Stop))
  end.

Definition info_cmd (dfs : pyobj) (_ : unit) : gen :=
  for_in dfs info_body.

(** The body of the loop in the second [def info_cmd] of the source, the
    one registered as [print]. *)
Definition print_body (df : item) : gen :=
  match df with
  | INone => GRaise (no_attribute "shape")
  | IDf d =>
      GAct (SetMaxRows (df_rows X d + 1)) (fun _ =>
        GAct (Write Stdout (df_to_string X d +:+ nl)) (fun _ =>
          Yield INone Stop))
  end.

Definition print_cmd (dfs : pyobj) (_ : unit) : gen :=
  for_in dfs print_body.

(** A chained subcommand with its options, as click hands it over. *)
Inductive cmd : Type :=
| Read (filename params : string)
| Head (lines : Z)
| Filter (expression : string)
| To (filename : option string) (params : string)
| Info
| Print.

(** What [yield from]/[for] makes of the incoming stream in each command:
    the generator function behind the decorator. *)
Definition cmd_gen (c : cmd) (stream : pyobj) : gen :=
  match c with
  | Read filename params => generator_new_func read_cmd stream (filename, params)
  | Head lines => head_cmd stream lines
  | Filter expression => filter_cmd stream expression
  | To filename params => to_cmd stream (filename, params)
  | Info => info_cmd stream tt
  | Print => print_cmd stream tt
  end.

(** The decorated command: [@generator] for [read], [@processor] for the
    others. *)
Definition cmd_stage (c : cmd) : stage :=
  match c with
  | Read filename params => generator read_cmd (filename, params)
  | Head lines => processor (genfun head_cmd) lines
  | Filter expression => processor (genfun filter_cmd) expression
  | To filename params => processor (genfun to_cmd) (filename, params)
  | Info => processor (genfun info_cmd) tt
  | Print => processor (genfun print_cmd) tt
  end.

(** The stream after the chained commands [cs], from the stream [s]:
    [stream_i = stage_i(stream_(i-1))]. *)
Definition stream_of (cs : list cmd) (s : gen) : gen :=
  foldl (fun g c => cmd_gen c (PyIter g)) s cs.

(** A stage made of a generator function without options. *)
Definition lazy_stage (body : pyobj -> gen) : stage :=
  processor (genfun (fun stream (_ : unit) => body stream)) tt.

(** The generator that chained generator functions build from [s]. *)
Definition lazy_stream (bodies : list (pyobj -> gen)) (s : gen) : gen :=
  foldl (fun g body => body (PyIter g)) s bodies.

(** ** Item-at-a-time reading of a pipeline

    The reference against which the order of the stream is stated: every
    item is carried through all the later stages before the next one is
    asked for, and a source adds its items when the stream before it has
    ended. *)

Definition outcome : Type := World * list item * option exn.

(** [o], and when it ended without exception, what [f] adds. *)
Definition and_then (o : outcome) (f : World -> outcome) : outcome :=
  let '(w1, ys1, r1) := o in
  match r1 with
  | Some e => (w1, ys1, Some e)
  | None => let '(w2, ys2, r2) := f w1 in (w2, (ys1 ++ ys2)%list, r2)
  end.

(** What a command does with one incoming item. *)
Definition cmd_body (c : cmd) (y : item) : gen :=
  match c with
  | Read _ _ => Yield y Stop
  | Head lines => head_body lines y
  | Filter expression => filter_body expression y
  | To filename params => to_body (filename, params) y
  | Info => info_body y
  | Print => print_body y
  end.

(** What a command adds once its incoming stream has ended. *)
Definition cmd_tail (c : cmd) : gen :=
  match c with
  | Read filename params => read_cmd_body filename params
  | _ => Stop
  end.

(** The items of [s] carried, one at a time and in order, through the
    commands [cs]. *)
Fixpoint carry (cs : list cmd) : gen -> World -> outcome :=
  match cs with
  | [] => collect
  | c :: cs' =>
      fix go (s : gen) (w : World) : outcome :=
        match s with
        | Stop => (w, [], None)
        | GRaise e => (w, [], Some e)
        | Yield y k => and_then (carry cs' (cmd_body c y) w) (go k)
        | GAct a k => let '(w', x) := perform a w in go (k x) w'
        end
  end.

(** The sources among [cs], in command order: the items of each are
    carried through the commands after it. *)
Fixpoint sources (cs : list cmd) (w : World) : outcome :=
  match cs with
  | [] => (w, [], None)
  | c :: cs' => and_then (carry cs' (cmd_tail c) w) (sources cs')
  end.

(** The commands that inject items of their own. *)
Definition is_source (c : cmd) : bool :=
  match c with
  | Read _ _ => true
  | _ => false
  end.

(** A piece of generator body every path of which ends in a [raise], or
    in one [yield] with nothing after it. *)
Inductive single : gen -> Prop :=
| single_raise (e : exn) : single (GRaise e)
| single_yield (y : item) : single (Yield y Stop)
| single_act {A : Type} (a : eff A) (k : A -> gen) :
    (forall x, single (k x)) -> single (GAct a k).

(** A piece of generator that yields exactly one item and ends, or
    yields nothing and raises. *)
Definition one_or_raise (o : outcome) : Prop :=
  match o with
  | (_, [_], None) => True
  | (_, [], Some _) => True
  | _ => False
  end.

End Pipeline.

Arguments Ret {X R} r.
Arguments Raise {X R} e.
Arguments Act {X R A} a k.
Arguments Stop {X}.
Arguments GRaise {X} e.
Arguments Yield {X} y k.
Arguments GAct {X A} a k.
Arguments PyNone {X}.
Arguments PyIter {X} g.
Arguments INone {X}.
Arguments IDf {X} d.
Arguments Write {X} c text.
Arguments IsFile {X} path.
Arguments PdRead {X} r path kw.
Arguments DfTo {X} w d buf kw.
Arguments DfStr {X} d.
Arguments SetMaxRows {X} n.
Arguments mk_world {X} fs max_rows console.
Arguments fs {X} w.
Arguments max_rows {X} w.
Arguments console {X} w.
Arguments bind {X R S} m f.
Arguments try_except {X R} m h.
Arguments gseq {X} g1 g2.
Arguments lift {X R} m f.
Arguments for_gen {X} g body.
Arguments iter {X} o.
Arguments for_in {X} o body.
Arguments yield_from {X} o.
Arguments drain_gen {X} g.
Arguments drain {X} o.
Arguments perform {X A} a w.
Arguments run {X R} m w.
Arguments collect {X} g w.
Arguments first_item {X} g w.
Arguments processor {X A} f args stream.
Arguments genfun {X A} body stream args.
Arguments generator_new_func {X A} f stream args.
Arguments generator {X A} f args stream.
Arguments pipe {X} processors stream.
Arguments process_commands {X} processors.
Arguments lazy_stage {X} body stream.
Arguments and_then {X} o f.
Arguments one_or_raise {X} o.
Arguments single {X} g.
Arguments lazy_stream {X} bodies s.

(** ** A small instance of the libraries, to run the model on

    Datasets are texts, the file system is an association list from paths
    to contents.  The literal reader knows [True], [False], [None] and
    unsigned decimal integers and raises on everything else; the query
    engine rejects the expression ["bad syntax ("]. *)

Module Toy.

Fixpoint digits (s : string) (acc : Z) : option Z :=
  match s with
  | EmptyString => Some acc
  | String c r =>
      let n := Z.of_nat (nat_of_ascii c) in
      if (48 <=? n) && (n <=? 57) then digits r (10 * acc + (n - 48))
      else None
  end.

Definition read_literal (text : string) : option pyval :=
  if String.eqb text "True" then Some (VBool true)
  else if String.eqb text "False" then Some (VBool false)
  else if String.eqb text "None" then Some VNone
  else match text with
       | EmptyString => None
       | _ => VInt <$> digits text 0
       end.

Fixpoint find_file (files : list (string * string)) (path : string)
  : option string :=
  match files with
  | [] => None
  | (p, c) :: rest => if String.eqb p path then Some c else find_file rest path
  end.

Definition read (files : list (string * string)) (path : string)
  : exn + string :=
  match find_file files path with
  | Some c => inr c
  | None => inl (mk_exn (LibraryError "OSError") path)
  end.

Definition query (d expression : string) : exn + string :=
  if String.eqb expression "bad syntax ("
  then inl (mk_exn (LibraryError "SyntaxError") "invalid syntax")
  else inr d.

Definition externals : Externals := {|
  Dataset := string;
  FS := list (string * string);
  literal_eval := read_literal;
  repr_str := fun s => "'" +:+ s +:+ "'";
  isfile := fun files path =>
    match find_file files path with Some _ => true | None => false end;
  pd_read := fun _ files path _ => read files path;
  df_to := fun _ files d buf _ => ((buf, d) :: files, None);
  df_query := query;
  df_head := fun d _ => d;
  df_str := fun _ d => d;
  df_info := fun d => d;
  df_to_string := fun d => d;
  df_rows := fun d => Z.of_nat (String.length d)
|}.

(** A world with the two files [a.csv] and [b.csv] and nothing printed. *)
Definition world0 : World externals :=
  mk_world (X := externals) [("a.csv", "A"); ("b.csv", "B")] 60 [].

End Toy.

(** ** The loose-parameter format

    The strings [key1=val1|key2=val2|...]: the listed pairs joined by the
    two delimiters, keys and values free of both. *)

Module Loose.
Import PyStr.

Definition segment (kv : string * string) : string :=
  kv.1 +:+ String "=" kv.2.

Definition text (pairs : list (string * string)) : string :=
  join "|" (segment <$> pairs).

Definition plain (s : string) : Prop :=
  contains "|" s = false /\ contains "=" s = false.

Definition well_formed (pairs : list (string * string)) : Prop :=
  Forall (fun kv => plain kv.1 /\ plain kv.2) pairs.

(** The value text listed for a key: the last one when the key is listed
    more than once. *)
Fixpoint listed (k : string) (pairs : list (string * string))
  : option string :=
  match pairs with
  | [] => None
  | kv :: rest =>
      match listed k rest with
      | Some v => Some v
      | None => if String.eqb kv.1 k then Some kv.2 else None
      end
  end.

(** The literal a value text stands for, or the text itself. *)
Definition literal_or_text (X : Externals) (v : string) : pyval :=
  match literal_eval X v with
  | Some x => x
  | None => VStr v
  end.

(** The dictionary after the pairs were assigned in order. *)
Definition assigned (X : Externals) (d : kwargs)
    (pairs : list (string * string)) : kwargs :=
  foldl (fun m kv => <[kv.1 := literal_or_text X kv.2]> m) d pairs.

End Loose.

(** ** Streams given by their items, and the footprint of a generator *)

Section Footprint.
Context (X : Externals).

(** A generator that yields the given items and does nothing else. *)
Fixpoint yield_all (ys : list (item X)) : gen X :=
  match ys with
  | [] => Stop
  | y :: rest => Yield y (yield_all rest)
  end.

(** The kinds of call into the outside world. *)
Inductive kind : Type :=
| KStdout | KStderr | KIsFile | KRead | KTo | KStr | KSetMaxRows.

Definition kind_of {A : Type} (a : eff X A) : kind :=
  match a with
  | Write Stdout _ => KStdout
  | Write Stderr _ => KStderr
  | IsFile _ => KIsFile
  | PdRead _ _ _ => KRead
  | DfTo _ _ _ _ => KTo
  | DfStr _ => KStr
  | SetMaxRows _ => KSetMaxRows
  end.

(** Every call the generator can make, on any path, is of an allowed
    kind. *)
Inductive only (allowed : kind -> bool) : gen X -> Prop :=
| only_stop : only allowed Stop
| only_raise (e : exn) : only allowed (GRaise e)
| only_yield (y : item X) (k : gen X) :
    only allowed k -> only allowed (Yield y k)
| only_act {A : Type} (a : eff X A) (k : A -> gen X) :
    allowed (kind_of a) = true ->
    (forall x, only allowed (k x)) ->
    only allowed (GAct a k).

(** The kinds of call each command makes. *)
Definition cmd_kinds (c : cmd) : list kind :=
  match c with
  | Read _ _ => [KIsFile; KRead]
  | Head _ => [KStr; KStdout]
  | Filter _ => [KStr; KStdout]
  | To _ _ => [KTo]
  | Info => [KStdout]
  | Print => [KSetMaxRows; KStdout]
  end.



(** The command that writes files. *)
Definition is_to (c : cmd) : bool :=
  match c with
  | To _ _ => true
  | _ => false
  end.


Definition not_to (k : kind) : bool :=
  match k with KTo => false | _ => true end.

End Footprint.

Arguments yield_all {X} ys.
Arguments kind_of {X A} a.
Arguments only {X} allowed g.

(** The attribute each command looks up first on an item of its stream;
    [read] and [to] look nothing up before their own checks. *)
Definition item_attribute (c : cmd) : option string :=
  match c with
  | Head _ => Some "head"
  | Filter _ => Some "query"
  | Info => Some "info"
  | Print => Some "shape"
  | Read _ _ | To _ _ => None
  end.

(** * Properties *)

(** ** Python strings and paths *)

Example split_two : PyStr.split "|" "a=1|b=True" = ["a=1"; "b=True"].
Proof. reflexivity. Qed.

Example split_empty : PyStr.split "|" "" = [""].
Proof. reflexivity. Qed.

Example split_three : PyStr.split "=" "a=x=y" = ["a"; "x"; "y"].
Proof. reflexivity. Qed.

Example splitext_csv : OsPath.splitext "missing.csv" = ("missing", ".csv").
Proof. reflexivity. Qed.

Example splitext_dir : OsPath.splitext "data.d/out" = ("data.d/out", "").
Proof. reflexivity. Qed.

Example splitext_hidden : OsPath.splitext "dir/.bashrc" = ("dir/.bashrc", "").
Proof. reflexivity. Qed.

Example splitext_double : OsPath.splitext "a.tar.gz" = ("a.tar", ".gz").
Proof. reflexivity. Qed.

Section SplitFacts.
Import PyStr.

Lemma split_not_nil (sep : ascii) (s : string) : split sep s <> [].
Proof.
  induction s as [|c r IH]; simpl; [discriminate|].
  destruct (Ascii.eqb c sep); [discriminate|].
  destruct (split sep r); discriminate.
Qed.

(** A text without the separator is one piece. *)
Lemma split_without (sep : ascii) (s : string) :
  contains sep s = false -> split sep s = [s].
Proof.
  induction s as [|c r IH]; simpl; [reflexivity|].
  intros H. apply orb_false_iff in H as [Hc Hr].
  rewrite Hc, (IH Hr). reflexivity.
Qed.

(** The first separator ends the first piece. *)
Lemma split_app (sep : ascii) (a b : string) :
  contains sep a = false ->
  split sep (a +:+ String sep b) = a :: split sep b.
Proof.
  induction a as [|c r IH]; simpl.
  - intros _. rewrite Ascii.eqb_refl. reflexivity.
  - intros H. apply orb_false_iff in H as [Hc Hr].
    rewrite Hc, (IH Hr). reflexivity.
Qed.

Lemma split_join (sep : ascii) (l : list string) :
  l <> [] ->
  Forall (fun s => contains sep s = false) l ->
  split sep (join sep l) = l.
Proof.
  induction l as [|x r IH]; [congruence|].
  intros _ Hall. inversion Hall as [|? ? Hx Hr]; subst.
  destruct r as [|y r'].
  - simpl. apply split_without, Hx.
  - change (join sep (x :: y :: r')) with (x +:+ String sep (join sep (y :: r'))).
    rewrite split_app by exact Hx.
    rewrite IH; [reflexivity|discriminate|exact Hr].
Qed.

Lemma contains_app (c : ascii) (a b : string) :
  contains c (a +:+ b) = contains c a || contains c b.
Proof.
  induction a as [|d r IH]; simpl; [reflexivity|].
  rewrite IH. apply orb_assoc.
Qed.

End SplitFacts.

(** ** The loose parameter parser *)

Section ParserFacts.
Context (X : Externals).
Import PyStr Loose.

(** The only exception a turn of the loop lets out. *)
Lemma args_to_dict_step_error (d : kwargs) (p : string) (e : exn) :
  args_to_dict_step X d p = inl e -> e = index_error.
Proof.
  unfold args_to_dict_step.
  destruct (split "=" p !! 0%nat), (split "=" p !! 1%nat);
    try destruct (literal_eval X _); congruence.
Qed.

Lemma args_to_dict_step_without_eq (d : kwargs) (p : string) :
  contains "=" p = false -> args_to_dict_step X d p = inl index_error.
Proof.
  intros H. unfold args_to_dict_step.
  rewrite (split_without _ _ H). reflexivity.
Qed.

Lemma args_to_dict_loop_without_eq (ps : list string) :
  forall (d : kwargs) (p : string),
    p ∈ ps -> contains "=" p = false ->
    args_to_dict_loop X d ps = inl index_error.
Proof.
  induction ps as [|q rest IH]; intros d p Hin Hp.
  - inversion Hin.
  - simpl. destruct (args_to_dict_step X d q) as [e|d'] eqn:Hstep.
    + f_equal. eapply args_to_dict_step_error, Hstep.
    + apply elem_of_cons in Hin as [->|Hin].
      * rewrite args_to_dict_step_without_eq in Hstep by exact Hp.
        discriminate.
      * eapply IH; eassumption.
Qed.

Lemma args_to_dict_step_segment (d : kwargs) (kv : string * string) :
  plain kv.1 -> plain kv.2 ->
  args_to_dict_step X d (segment kv)
  = inr (<[kv.1 := literal_or_text X kv.2]> d).
Proof.
  intros [_ Hk] [_ Hv]. unfold args_to_dict_step, segment.
  rewrite (split_app _ _ _ Hk), (split_without _ _ Hv). simpl.
  unfold literal_or_text. destruct (literal_eval X kv.2); reflexivity.
Qed.

Lemma args_to_dict_loop_segments (pairs : list (string * string)) :
  forall d : kwargs,
    well_formed pairs ->
    args_to_dict_loop X d (segment <$> pairs) = inr (assigned X d pairs).
Proof.
  induction pairs as [|kv rest IH]; intros d Hwf; [reflexivity|].
  inversion Hwf as [|? ? [Hk Hv] Hrest]; subst. simpl.
  rewrite args_to_dict_step_segment by assumption.
  apply IH, Hrest.
Qed.

Lemma assigned_lookup (pairs : list (string * string)) :
  forall (d : kwargs) (k : string),
    assigned X d pairs !! k
    = match listed k pairs with
      | Some v => Some (literal_or_text X v)
      | None => d !! k
      end.
Proof.
  induction pairs as [|kv rest IH]; intros d k; [reflexivity|].
  change (assigned X d (kv :: rest))
    with (assigned X (<[kv.1 := literal_or_text X kv.2]> d) rest).
  rewrite IH. simpl.
  destruct (listed k rest); [reflexivity|].
  destruct (String.eqb_spec kv.1 k) as [->|Hne].
  - apply lookup_insert_eq.
  - apply lookup_insert_ne, Hne.
Qed.

Lemma listed_is_Some (k : string) (pairs : list (string * string)) :
  is_Some (listed k pairs) <-> k ∈ pairs.*1.
Proof.
  induction pairs as [|kv rest IH]; simpl.
  - split; [intros [? ?]; discriminate | intros H; inversion H].
  - rewrite elem_of_cons, <- IH.
    destruct (listed k rest) as [v|].
    + split; [intros _; right; eauto | eauto].
    + destruct (String.eqb_spec kv.1 k) as [->|Hne].
      * split; [intros _; left; reflexivity | eauto].
      * split; [intros [? ?]; discriminate|].
        intros [->|[? ?]]; [congruence | discriminate].
Qed.

Lemma segment_has_eq (kv : string * string) :
  contains "=" (segment kv) = true.
Proof.
  unfold segment. rewrite contains_app. simpl. apply orb_true_r.
Qed.

Lemma text_not_empty (kv : string * string) (rest : list (string * string)) :
  text (kv :: rest) <> EmptyString.
Proof.
  intros H.
  assert (Hc : contains "=" (text (kv :: rest)) = true).
  { unfold text. destruct rest as [|kv' rest'].
    - apply segment_has_eq.
    - change (contains "=" (segment kv +:+
                String "|" (join "|" (segment <$> kv' :: rest'))) = true).
      rewrite contains_app, segment_has_eq. reflexivity. }
  rewrite H in Hc. discriminate.
Qed.

Lemma segment_without_bar (kv : string * string) :
  plain kv.1 -> plain kv.2 -> contains "|" (segment kv) = false.
Proof.
  intros [Hk _] [Hv _]. unfold segment.
  rewrite contains_app, Hk. simpl. exact Hv.
Qed.

Lemma args_to_dict_text (pairs : list (string * string)) :
  well_formed pairs ->
  args_to_dict X (text pairs) = inr (assigned X ∅ pairs).
Proof.
  intros Hwf. destruct pairs as [|kv rest]; [reflexivity|].
  unfold args_to_dict.
  destruct (text (kv :: rest)) eqn:Htext.
  - exfalso. eapply text_not_empty, Htext.
  - rewrite <- Htext. unfold text. rewrite split_join.
    + apply args_to_dict_loop_segments, Hwf.
    + discriminate.
    + apply Forall_fmap. eapply Forall_impl; [exact Hwf|].
      intros kv' [Hk Hv]. apply segment_without_bar; assumption.
Qed.

End ParserFacts.

(** C3.  On the empty string [args_to_dict] returns the empty dictionary.
    On a loose-parameter string [key1=val1|key2=val2|...] (keys and values
    free of the two delimiters) it returns a dictionary whose keys are
    exactly the listed keys, and the value of each key is what
    [literal_eval] makes of its value text when that succeeds and the value
    text itself otherwise (for a key listed twice, its last value text);
    nothing but [literal_eval] is applied to a value text.  In particular
    ["a=1|b=True"] gives [{a: 1, b: True}]. *)
Theorem args_to_dict_loose_string (X : Externals) :
  args_to_dict X "" = inr ∅ /\
  (forall pairs : list (string * string),
     Loose.well_formed pairs ->
     exists d : kwargs,
       args_to_dict X (Loose.text pairs) = inr d /\
       dom d = list_to_set pairs.*1 /\
       forall k, d !! k = Loose.literal_or_text X <$> Loose.listed k pairs) /\
  (literal_eval X "1" = Some (VInt 1) ->
   literal_eval X "True" = Some (VBool true) ->
   args_to_dict X "a=1|b=True" = inr {[ "a" := VInt 1; "b" := VBool true ]}).
Proof.
  assert (Hlookup : forall pairs k,
             Loose.assigned X ∅ pairs !! k
             = Loose.literal_or_text X <$> Loose.listed k pairs).
  { intros pairs k. rewrite assigned_lookup.
    destruct (Loose.listed k pairs); [reflexivity | apply lookup_empty]. }
  split; [reflexivity|]. split.
  - intros pairs Hwf. exists (Loose.assigned X ∅ pairs).
    split; [apply args_to_dict_text, Hwf|]. split; [|apply Hlookup].
    apply set_eq. intros k.
    rewrite elem_of_dom, elem_of_list_to_set, <- listed_is_Some, Hlookup.
    apply fmap_is_Some.
  - intros H1 HTrue.
    change (args_to_dict X "a=1|b=True")
      with (args_to_dict X (Loose.text [("a", "1"); ("b", "True")])).
    rewrite (args_to_dict_text X [("a", "1"); ("b", "True")]).
    + f_equal. apply map_eq. intros k. rewrite Hlookup.
      cbn [Loose.listed fst snd]. unfold Loose.literal_or_text.
      destruct (String.eqb_spec "b" k) as [<-|Hb].
      * cbn. rewrite HTrue. reflexivity.
      * destruct (String.eqb_spec "a" k) as [<-|Ha].
        -- cbn. rewrite H1. reflexivity.
        -- rewrite lookup_insert_ne, lookup_singleton_ne by assumption.
           reflexivity.
    + repeat constructor.
Qed.

Lemma args_to_dict_loose_string_witness :
  args_to_dict Toy.externals "a=1|b=True"
  = inr {[ "a" := VInt 1; "b" := VBool true ]} /\
  exists d : kwargs,
    args_to_dict Toy.externals (Loose.text [("sep", ";"); ("header", "None")])
    = inr d /\
    dom d = list_to_set [("sep", ";"); ("header", "None")].*1 /\
    forall k,
      d !! k = Loose.literal_or_text Toy.externals
                 <$> Loose.listed k [("sep", ";"); ("header", "None")].
Proof.
  destruct (args_to_dict_loose_string Toy.externals) as (_ & Hform & Hex).
  split.
  - apply Hex; reflexivity.
  - apply Hform. repeat constructor.
Defined.

(** C9.  When one of the [|]-separated segments of the string has no [=],
    [args_to_dict] makes no entry for it: on a string that is not empty the
    parse fails as a whole, the [IndexError] of [splitted[1]] leaving the
    function; the empty string, which is never split, gives the empty
    dictionary. *)
Theorem args_to_dict_segment_without_eq
    (X : Externals) (arg p : string) :
  p ∈ PyStr.split "|" arg ->
  PyStr.contains "=" p = false ->
  (arg <> EmptyString -> args_to_dict X arg = inl index_error) /\
  (arg = EmptyString -> args_to_dict X arg = inr ∅).
Proof.
  intros Hin Hp. split.
  - intros Hne. unfold args_to_dict.
    destruct arg; [congruence|].
    eapply args_to_dict_loop_without_eq; eassumption.
  - intros ->. reflexivity.
Qed.

Lemma args_to_dict_segment_without_eq_witness :
  args_to_dict Toy.externals "a=1|header" = inl index_error.
Proof.
  refine (proj1 (args_to_dict_segment_without_eq
                   Toy.externals "a=1|header" "header" _ _) _).
  - simpl. apply list_elem_of_In. simpl. auto.
  - reflexivity.
  - discriminate.
Defined.

(** ** Running calls and generators *)

Section RunFacts.
Context {X : Externals}.

Lemma run_bind {R S : Type} (m : io X R) (f : R -> io X S) (w : World X) :
  run (bind m f) w
  = match run m w with
    | (w', inl e) => (w', inl e)
    | (w', inr r) => run (f r) w'
    end.
Proof.
  revert w. induction m as [r|e|A a k IH]; intros w; simpl; try reflexivity.
  destruct (perform a w) as [w' x]. apply IH.
Qed.

Lemma run_try_except {R : Type} (m : io X R) (h : exn -> io X R) (w : World X) :
  run (try_except m h) w
  = match run m w with
    | (w', inl e) => run (h e) w'
    | (w', inr r) => (w', inr r)
    end.
Proof.
  revert w. induction m as [r|e|A a k IH]; intros w; simpl; try reflexivity.
  destruct (perform a w) as [w' x]. apply IH.
Qed.

(** The draining loop iterates the generator to its end and keeps
    nothing of the items. *)
Lemma run_drain_gen (g : gen X) (w : World X) :
  run (drain_gen g) w
  = match collect g w with
    | (w', _, Some e) => (w', inl e)
    | (w', _, None) => (w', inr tt)
    end.
Proof.
  revert w. induction g as [|e|y k IH|A a k IH]; intros w; simpl;
    try reflexivity.
  - rewrite IH. destruct (collect k w) as [[w' ys] [e|]]; reflexivity.
  - destruct (perform a w) as [w' x]. apply IH.
Qed.

Lemma and_then_assoc (o : outcome X) (f g : World X -> outcome X) :
  and_then (and_then o f) g = and_then o (fun w => and_then (f w) g).
Proof.
  destruct o as [[w1 ys1] [e|]]; simpl; [reflexivity|].
  destruct (f w1) as [[w2 ys2] [e|]]; simpl; [reflexivity|].
  destruct (g w2) as [[w3 ys3] r3]. rewrite app_assoc. reflexivity.
Qed.

Lemma and_then_ext (o : outcome X) (f g : World X -> outcome X) :
  (forall w, f w = g w) -> and_then o f = and_then o g.
Proof.
  intros H. destruct o as [[w1 ys1] [e|]]; simpl; [reflexivity|].
  rewrite H. reflexivity.
Qed.

Lemma and_then_nil (w : World X) (f : World X -> outcome X) :
  and_then (w, [], None) f = f w.
Proof. simpl. destruct (f w) as [[w2 ys2] r2]. reflexivity. Qed.

Lemma and_then_stop (o : outcome X) :
  and_then o (fun w => (w, [], None)) = o.
Proof.
  destruct o as [[w1 ys1] [e|]]; simpl; [reflexivity|].
  rewrite app_nil_r. reflexivity.
Qed.

(** Two pieces of a generator in sequence: the second runs when the first
    has ended without exception. *)
Lemma collect_gseq (g1 g2 : gen X) (w : World X) :
  collect (gseq g1 g2) w = and_then (collect g1 w) (collect g2).
Proof.
  revert w. induction g1 as [|e|y k IH|A a k IH]; intros w.
  - symmetry. apply and_then_nil.
  - reflexivity.
  - simpl. rewrite IH.
    destruct (collect k w) as [[w1 ys1] [e|]]; simpl; [reflexivity|].
    destruct (collect g2 w1) as [[w2 ys2] r2]. reflexivity.
  - simpl. destruct (perform a w) as [w' x]. apply IH.
Qed.

(** A generator function never raises when it is called: [processor]
    hands its generator object over untouched. *)
Lemma processor_genfun {A : Type} (body : pyobj X -> A -> gen X)
    (args : A) (stream : pyobj X) :
  processor (genfun body) args stream = Ret (PyIter (body stream args)).
Proof. reflexivity. Qed.

Lemma cmd_stage_lazy (c : cmd) (stream : pyobj X) :
  cmd_stage X c stream = Ret (PyIter (cmd_gen X c stream)).
Proof. destruct c; reflexivity. Qed.

(** The loop over the processors goes from left to right: the stream
    after [ps ++ qs] is the stream after [ps], handed to [qs]. *)
Lemma run_pipe_app (ps qs : list (stage X)) (stream : pyobj X) (w : World X) :
  run (pipe (ps ++ qs) stream) w
  = match run (pipe ps stream) w with
    | (w', inl e) => (w', inl e)
    | (w', inr stream') => run (pipe qs stream') w'
    end.
Proof.
  revert stream w. induction ps as [|p rest IH]; intros stream w.
  - reflexivity.
  - simpl. rewrite !run_bind.
    destruct (run (p stream) w) as [w' [e|stream']]; [reflexivity|].
    apply IH.
Qed.

End RunFacts.

Section ComposerFacts.
Context {X : Externals}.

(** Composing generator-function stages runs nothing: the world is
    untouched and the result is the nested generator. *)
Lemma run_pipe_lazy (bodies : list (pyobj X -> gen X)) (s : gen X) (w : World X) :
  run (pipe (lazy_stage <$> bodies) (PyIter s)) w
  = (w, inr (PyIter (lazy_stream bodies s))).
Proof.
  revert s. induction bodies as [|b rest IH]; intros s; [reflexivity|].
  simpl. apply IH.
Qed.

Lemma run_pipe_cmds (cs : list cmd) (s : gen X) (w : World X) :
  run (pipe (cmd_stage X <$> cs) (PyIter s)) w
  = (w, inr (PyIter (stream_of X cs s))).
Proof.
  revert s. induction cs as [|c rest IH]; intros s; [reflexivity|].
  simpl. rewrite cmd_stage_lazy. simpl. apply IH.
Qed.

Lemma run_process_commands (ps : list (stage X)) (w : World X) :
  run (process_commands ps) w
  = match run (pipe ps (PyIter Stop)) w with
    | (w', inl e) => (w', inl e)
    | (w', inr final) => run (drain final) w'
    end.
Proof. unfold process_commands. apply run_bind. Qed.

(** A chain of commands: all that happens, happens while the final
    stream is drained. *)
Lemma run_process_commands_cmds (cs : list cmd) (w : World X) :
  run (process_commands (cmd_stage X <$> cs)) w
  = match collect (stream_of X cs Stop) w with
    | (w', _, Some e) => (w', inl e)
    | (w', _, None) => (w', inr tt)
    end.
Proof.
  rewrite run_process_commands, run_pipe_cmds. apply run_drain_gen.
Qed.

End ComposerFacts.

(** C6.  [process_commands] pipes the stream through the stages from left
    to right, starting from the empty stream: no stage gives the stream
    unchanged, and the stream after [ps ++ [p]] is [p] applied to the stream
    after [ps].  It then drains the final stream.  When the stages are made
    of generator functions (as all the commands are), composing them leaves
    the world untouched and builds the nested generator; draining iterates
    that generator to its end, keeps none of its items, and every effect of
    every stage happens during this drain. *)
Theorem process_commands_folds_then_drains (X : Externals) :
  (forall (stream : pyobj X) (w : World X),
     run (pipe [] stream) w = (w, inr stream)) /\
  (forall (ps : list (stage X)) (p : stage X) (stream : pyobj X) (w : World X),
     run (pipe (ps ++ [p]) stream) w
     = match run (pipe ps stream) w with
       | (w', inl e) => (w', inl e)
       | (w', inr stream') => run (p stream') w'
       end) /\
  (forall (ps : list (stage X)) (w : World X),
     run (process_commands ps) w
     = match run (pipe ps (PyIter Stop)) w with
       | (w', inl e) => (w', inl e)
       | (w', inr final) => run (drain final) w'
       end) /\
  (forall (bodies : list (pyobj X -> gen X)) (w : World X),
     run (pipe (lazy_stage <$> bodies) (PyIter Stop)) w
     = (w, inr (PyIter (lazy_stream bodies Stop))) /\
     run (process_commands (lazy_stage <$> bodies)) w
     = match collect (lazy_stream bodies Stop) w with
       | (w', _, Some e) => (w', inl e)
       | (w', _, None) => (w', inr tt)
       end) /\
  (forall (cs : list cmd) (w : World X),
     run (pipe (cmd_stage X <$> cs) (PyIter Stop)) w
     = (w, inr (PyIter (stream_of X cs Stop))) /\
     run (process_commands (cmd_stage X <$> cs)) w
     = match collect (stream_of X cs Stop) w with
       | (w', _, Some e) => (w', inl e)
       | (w', _, None) => (w', inr tt)
       end).
Proof.
  split; [reflexivity|]. split.
  { intros ps p stream w. rewrite run_pipe_app.
    destruct (run (pipe ps stream) w) as [w' [e|stream']]; [reflexivity|].
    simpl. rewrite run_bind.
    destruct (run (p stream') w') as [w'' [e|r]]; reflexivity. }
  split; [apply run_process_commands|]. split.
  - intros bodies w. split; [apply run_pipe_lazy|].
    rewrite run_process_commands, run_pipe_lazy. apply run_drain_gen.
  - intros cs w. split; [apply run_pipe_cmds|apply run_process_commands_cmds].
Qed.

(** C10.  When the wrapped function [f] raises [e] at call time, the
    adapted stage echoes ["Error: " + str(e)] to the error channel and
    returns [None], not a stream.  Iterating [None] raises [TypeError]: in
    the draining loop, and in every command placed after it. *)
Theorem processor_call_time_exception
    (X : Externals) (A : Type) (f : pyobj X -> A -> io X (pyobj X))
    (args : A) (stream : pyobj X) (w w' : World X) (e : exn) :
  run (f stream args) w = (w', inl e) ->
  let printed :=
    mk_world (fs w') (max_rows w')
      (console w' ++ [(Stderr, "Error: " +:+ str_exn X e +:+ PyStr.nl)]) in
  run (processor f args stream) w = (printed, inr PyNone) /\
  (forall w1 : World X, run (drain (@PyNone X)) w1 = (w1, inl not_iterable)) /\
  (forall (c : cmd) (w1 : World X),
     collect (cmd_gen X c PyNone) w1 = (w1, [], Some not_iterable)) /\
  (stream = PyIter Stop ->
   run (process_commands [processor f args]) w = (printed, inl not_iterable) /\
   forall c : cmd,
     run (process_commands [processor f args; cmd_stage X c]) w
     = (printed, inl not_iterable)).
Proof.
  intros Hcall printed.
  assert (Hstage : run (processor f args stream) w = (printed, inr PyNone)).
  { unfold processor. rewrite run_try_except, Hcall. reflexivity. }
  split; [exact Hstage|]. split; [reflexivity|]. split.
  { intros c w1. destruct c; reflexivity. }
  intros ->. split.
  - rewrite run_process_commands. simpl pipe. rewrite run_bind, Hstage.
    reflexivity.
  - intros c. rewrite run_process_commands. simpl pipe.
    rewrite run_bind, Hstage, run_bind, cmd_stage_lazy.
    simpl. destruct c; reflexivity.
Qed.

Lemma processor_call_time_exception_witness :
  run (processor (fun (_ : pyobj Toy.externals) (_ : unit) =>
                    Raise (mk_exn FileNotFoundError "x.csv not found."))
         tt (PyIter Stop)) Toy.world0
  = (mk_world (fs Toy.world0) (max_rows Toy.world0)
       [(Stderr, "Error: x.csv not found." +:+ PyStr.nl)], inr PyNone).
Proof.
  refine (proj1 (processor_call_time_exception Toy.externals unit
                   (fun _ _ => Raise (mk_exn FileNotFoundError "x.csv not found."))
                   tt (PyIter Stop) Toy.world0 Toy.world0
                   (mk_exn FileNotFoundError "x.csv not found.") _)).
  reflexivity.
Defined.

(** ** The stage library *)

Section StageFacts.
Context {X : Externals}.

Lemma CONFIG_read_csv : CONFIG_read_functions !! ".csv" = Some pd_read_csv.
Proof. reflexivity. Qed.

Lemma CONFIG_read_xlsx : CONFIG_read_functions !! ".xlsx" = Some pd_read_excel.
Proof. reflexivity. Qed.

Lemma pd_params_of_args_to_dict (params : string) :
  pd_params_of X params = args_to_dict X params.
Proof. destruct params; reflexivity. Qed.

(** All the ways the body of [read_cmd] can go. *)
Lemma collect_read_cmd_body (filename params : string) (w : World X) :
  collect (read_cmd_body X filename params) w
  = if isfile X (fs w) filename then
      match args_to_dict X params with
      | inl e => (w, [], Some e)
      | inr pd_params =>
          match CONFIG_read_functions !! (OsPath.splitext filename).2 with
          | None => (w, [], Some (mk_exn KeyError (OsPath.splitext filename).2))
          | Some r =>
              match pd_read X r (fs w) filename pd_params with
              | inl e => (w, [], Some e)
              | inr df => (w, [IDf df], None)
              end
          end
      end
    else (w, [], Some (file_not_found filename)).
Proof.
  unfold read_cmd_body. rewrite pd_params_of_args_to_dict.
  cbn [collect perform].
  destruct (isfile X (fs w) filename) eqn:Hfile; [|reflexivity].
  cbn [negb collect perform]. rewrite Hfile.
  destruct (OsPath.splitext filename) as [fname fextension].
  cbn [snd].
  destruct (args_to_dict X params) as [e|pd_params]; [reflexivity|].
  destruct (CONFIG_read_functions !! fextension) as [r|]; [|reflexivity].
  cbn [collect perform].
  destruct (pd_read X r (fs w) filename pd_params); reflexivity.
Qed.

Lemma collect_for_gen_ext (s : gen X) (b1 b2 : item X -> gen X) (w : World X) :
  (forall y, b1 y = b2 y) ->
  collect (for_gen s b1) w = collect (for_gen s b2) w.
Proof.
  intros Hb. revert w.
  induction s as [|e|y k IH|A a k IH]; intros w; try reflexivity.
  - cbn [for_gen]. rewrite !collect_gseq, Hb.
    apply and_then_ext, IH.
  - cbn [for_gen collect]. destruct (perform a w) as [w' x]. apply IH.
Qed.

(** A loop whose body raises stops at the first item. *)
Lemma collect_for_gen_raise (s : gen X) (e : exn) (w : World X) :
  collect (for_gen s (fun _ => GRaise e)) w
  = match first_item s w with
    | (w', Some _, _) => (w', [], Some e)
    | (w', None, r) => (w', [], r)
    end.
Proof.
  revert w. induction s as [|e'|y k IH|A a k IH]; intros w; try reflexivity.
  cbn [for_gen collect first_item]. destruct (perform a w) as [w' x]. apply IH.
Qed.

End StageFacts.

(** C1.  What the code does where the claim asks for containment: the call
    of a generator function never raises, so the [try] of [processor] has
    nothing to catch; an exception raised while the generator is iterated
    leaves the draining loop and [process_commands], and the adapter echoes
    nothing. *)
Theorem exception_while_iterating_escapes
    (X : Externals) (A : Type) (body : pyobj X -> A -> gen X) (args : A)
    (w w' : World X) (ys : list (item X)) (e : exn) :
  collect (body (PyIter Stop) args) w = (w', ys, Some e) ->
  run (processor (genfun body) args (PyIter Stop)) w
  = (w, inr (PyIter (body (PyIter Stop) args))) /\
  run (process_commands [processor (genfun body) args]) w = (w', inl e).
Proof.
  intros Hiter. split; [reflexivity|].
  rewrite run_process_commands. cbn [pipe].
  rewrite run_bind, processor_genfun. cbn [run pipe].
  unfold drain. cbn [iter]. rewrite run_drain_gen, Hiter. reflexivity.
Qed.

Lemma exception_while_iterating_escapes_witness :
  run (process_commands [cmd_stage Toy.externals (Read "missing.csv" "")])
    Toy.world0
  = (Toy.world0, inl (file_not_found "missing.csv")).
Proof.
  refine (proj2 (exception_while_iterating_escapes Toy.externals _
                   (generator_new_func (read_cmd Toy.externals))
                   ("missing.csv", "") Toy.world0 Toy.world0 []
                   (file_not_found "missing.csv") _)).
  reflexivity.
Defined.

(** C2.  What the code does on [read(missing) -> head(lines)]: the
    [FileNotFoundError] raised while the stream is drained leaves
    [process_commands]; the world is untouched, so nothing was echoed on
    either channel. *)
Theorem read_missing_then_head
    (X : Externals) (w : World X) (filename params : string) (lines : Z) :
  isfile X (fs w) filename = false ->
  run (process_commands
         [cmd_stage X (Read filename params); cmd_stage X (Head lines)]) w
  = (w, inl (file_not_found filename)).
Proof.
  intros Hfile.
  change [cmd_stage X (Read filename params); cmd_stage X (Head lines)]
    with (cmd_stage X <$> [Read filename params; Head lines]).
  rewrite run_process_commands_cmds.
  cbn [stream_of foldl cmd_gen generator_new_func yield_from iter gseq
       read_cmd lift fst snd head_cmd for_in].
  unfold read_cmd_body. cbn [for_gen collect perform]. rewrite Hfile.
  reflexivity.
Qed.

Lemma read_missing_then_head_witness :
  run (process_commands
         [cmd_stage Toy.externals (Read "missing.csv" "");
          cmd_stage Toy.externals (Head 3)]) Toy.world0
  = (Toy.world0, inl (file_not_found "missing.csv")).
Proof.
  apply (read_missing_then_head Toy.externals Toy.world0 "missing.csv" "" 3).
  reflexivity.
Defined.

(** C8.  With an existing file whose extension is [.csv] or [.xlsx], the
    read stage calls the matching pandas reader on the file name with the
    dictionary [args_to_dict] made of the loose parameters, and yields
    exactly the one dataset the reader returns (it raises what the reader
    raises).  With a file that does not exist it raises
    [FileNotFoundError] and yields nothing. *)
Theorem read_cmd_one_dataset
    (X : Externals) (filename params : string) (w : World X) :
  (isfile X (fs w) filename = true ->
   forall (r : reader) (pd_params : kwargs),
     ((OsPath.splitext filename).2 = ".csv" /\ r = pd_read_csv) \/
     ((OsPath.splitext filename).2 = ".xlsx" /\ r = pd_read_excel) ->
     args_to_dict X params = inr pd_params ->
     collect (cmd_gen X (Read filename params) (PyIter Stop)) w
     = match pd_read X r (fs w) filename pd_params with
       | inr df => (w, [IDf df], None)
       | inl e => (w, [], Some e)
       end) /\
  (isfile X (fs w) filename = false ->
   collect (cmd_gen X (Read filename params) (PyIter Stop)) w
   = (w, [], Some (file_not_found filename))).
Proof.
  change (cmd_gen X (Read filename params) (PyIter Stop))
    with (read_cmd_body X filename params).
  rewrite collect_read_cmd_body. split.
  - intros -> r pd_params Hext ->.
    destruct Hext as [[-> ->]|[-> ->]];
      rewrite ?CONFIG_read_csv, ?CONFIG_read_xlsx;
      destruct (pd_read X _ (fs w) filename pd_params); reflexivity.
  - intros ->. reflexivity.
Qed.

Lemma read_cmd_one_dataset_witness :
  collect (cmd_gen Toy.externals (Read "a.csv" "sep=;") (PyIter Stop))
    Toy.world0
  = (Toy.world0, [IDf (X := Toy.externals) "A"], None) /\
  collect (cmd_gen Toy.externals (Read "missing.csv" "") (PyIter Stop))
    Toy.world0
  = (Toy.world0, [], Some (file_not_found "missing.csv")).
Proof.
  split.
  - refine (proj1 (read_cmd_one_dataset Toy.externals "a.csv" "sep=;" Toy.world0)
              _ pd_read_csv {[ "sep" := VStr ";" ]} _ _).
    + reflexivity.
    + left. split; reflexivity.
    + reflexivity.
  - apply (proj2 (read_cmd_one_dataset Toy.externals "missing.csv" "" Toy.world0)).
    reflexivity.
Defined.

(** C4.  The source adapter, applied to an incoming stream, returns (without
    running anything) a generator that first yields every item of the
    incoming stream, unchanged and in order, and when that stream has ended
    yields every item of the stream the wrapped function returns.  So two
    chained reads of readable files give exactly the two datasets, the one
    of the first file before the one of the second. *)
Theorem generator_forwards_then_appends
    (X : Externals) (A : Type) (f : A -> io X (pyobj X)) (args : A)
    (s : gen X) (w : World X) :
  run (generator f args (PyIter s)) w
  = (w, inr (PyIter (generator_new_func f (PyIter s) args))) /\
  collect (generator_new_func f (PyIter s) args) w
  = and_then (collect s w) (collect (lift (f args) yield_from)) /\
  (forall (a pa b pb : string) (ra rb : reader) (ka kb : kwargs)
          (da db : Dataset X),
     isfile X (fs w) a = true ->
     isfile X (fs w) b = true ->
     CONFIG_read_functions !! (OsPath.splitext a).2 = Some ra ->
     CONFIG_read_functions !! (OsPath.splitext b).2 = Some rb ->
     args_to_dict X pa = inr ka ->
     args_to_dict X pb = inr kb ->
     pd_read X ra (fs w) a ka = inr da ->
     pd_read X rb (fs w) b kb = inr db ->
     collect (stream_of X [Read a pa; Read b pb] Stop) w
     = (w, [IDf da; IDf db], None)).
Proof.
  split; [reflexivity|]. split.
  - unfold generator_new_func. cbn [yield_from iter]. apply collect_gseq.
  - intros a pa b pb ra rb ka kb da db Ha Hb Hra Hrb Hka Hkb Hda Hdb.
    change (stream_of X [Read a pa; Read b pb] Stop)
      with (gseq (read_cmd_body X a pa) (read_cmd_body X b pb)).
    rewrite collect_gseq, collect_read_cmd_body, Ha, Hka, Hra, Hda.
    cbn [and_then].
    rewrite collect_read_cmd_body, Hb, Hkb, Hrb, Hdb. reflexivity.
Qed.

Lemma generator_forwards_then_appends_witness :
  collect (stream_of Toy.externals [Read "a.csv" ""; Read "b.csv" ""] Stop)
    Toy.world0
  = (Toy.world0,
     [IDf (X := Toy.externals) "A"; IDf (X := Toy.externals) "B"], None).
Proof.
  refine (proj2 (proj2 (generator_forwards_then_appends Toy.externals
                          (string * string) (read_cmd Toy.externals)
                          ("a.csv", "") Stop Toy.world0))
            "a.csv" "" "b.csv" "" pd_read_csv pd_read_csv ∅ ∅ "A" "B"
            _ _ _ _ _ _ _ _); reflexivity.
Defined.

(** C7, the claim as stated, at one input: [to] with an unknown extension
    and nothing before it ends without any error and without any effect. *)
Lemma to_unknown_extension_silent :
  CONFIG_to_functions !! (OsPath.splitext "out.txt").2 = None /\
  collect (to_cmd Toy.externals (PyIter Stop) (Some "out.txt", "")) Toy.world0
  = (Toy.world0, [], None) /\
  run (process_commands [cmd_stage Toy.externals (To (Some "out.txt") "")])
    Toy.world0
  = (Toy.world0, inr tt) /\
  ~ (forall (X : Externals) (filename params : string) (s : gen X)
            (w : World X),
       CONFIG_to_functions !! (OsPath.splitext filename).2 = None ->
       exists w' ys e,
         collect (to_cmd X (PyIter s) (Some filename, params)) w
         = (w', ys, Some e)).
Proof.
  split; [reflexivity|]. split; [reflexivity|]. split; [reflexivity|].
  intros Hall.
  destruct (Hall Toy.externals "out.txt" "" Stop Toy.world0 eq_refl)
    as (w' & ys & e & Hraise).
  discriminate Hraise.
Qed.

(** C7, amended.  A file name whose extension is not in the table makes
    [read] raise and yield nothing: [FileNotFoundError] when the file is
    missing, otherwise the [IndexError] of malformed loose parameters,
    otherwise [KeyError] on the extension.  It makes [to] raise that
    [KeyError] at the first item of its incoming stream, before anything is
    written and without yielding; when the incoming stream ends without an
    item, [to] ends the same way, which is without error when the incoming
    stream ends normally. *)
Theorem unknown_extension_raises
    (X : Externals) (filename params : string) (w : World X) :
  (CONFIG_read_functions !! (OsPath.splitext filename).2 = None ->
   collect (read_cmd_body X filename params) w
   = (w, [],
      Some (if isfile X (fs w) filename then
              match args_to_dict X params with
              | inl e => e
              | inr _ => mk_exn KeyError (OsPath.splitext filename).2
              end
            else file_not_found filename))) /\
  (CONFIG_to_functions !! (OsPath.splitext filename).2 = None ->
   forall s : gen X,
     collect (to_cmd X (PyIter s) (Some filename, params)) w
     = match first_item s w with
       | (w', Some _, _) =>
           (w', [], Some (mk_exn KeyError (OsPath.splitext filename).2))
       | (w', None, r) => (w', [], r)
       end).
Proof.
  split.
  - intros Hext. rewrite collect_read_cmd_body, Hext.
    destruct (isfile X (fs w) filename); [|reflexivity].
    destruct (args_to_dict X params); reflexivity.
  - intros Hext s. unfold to_cmd, for_in. cbn [iter].
    rewrite <- collect_for_gen_raise. apply collect_for_gen_ext.
    intros y. unfold to_body. cbn [fst].
    destruct (OsPath.splitext filename) as [fname fextension].
    cbn [snd] in *. rewrite Hext. reflexivity.
Qed.

Lemma unknown_extension_raises_witness :
  collect (read_cmd_body Toy.externals "a.txt" "") Toy.world0
  = (Toy.world0, [], Some (file_not_found "a.txt")) /\
  collect (to_cmd Toy.externals
             (PyIter (read_cmd_body Toy.externals "a.csv" ""))
             (Some "out.txt", "")) Toy.world0
  = (Toy.world0, [], Some (mk_exn KeyError ".txt")).
Proof.
  split.
  - apply (proj1 (unknown_extension_raises Toy.externals "a.txt" "" Toy.world0)).
    reflexivity.
  - apply (proj2 (unknown_extension_raises Toy.externals "out.txt" "" Toy.world0)).
    reflexivity.
Defined.

(** ** The order of the stream *)

Section OrderFacts.
Context {X : Externals}.

Lemma carry_stop (cs : list cmd) (w : World X) :
  carry X cs Stop w = (w, [], None).
Proof. destruct cs; reflexivity. Qed.

Lemma carry_raise (cs : list cmd) (e : exn) (w : World X) :
  carry X cs (GRaise e) w = (w, [], Some e).
Proof. destruct cs; reflexivity. Qed.

Lemma carry_act (cs : list cmd) {A : Type} (a : eff X A) (k : A -> gen X)
    (w : World X) :
  carry X cs (GAct a k) w
  = let '(w', x) := perform a w in carry X cs (k x) w'.
Proof. destruct cs; reflexivity. Qed.

Lemma carry_yield (c : cmd) (cs : list cmd) (y : item X) (k : gen X)
    (w : World X) :
  carry X (c :: cs) (Yield y k) w
  = and_then (carry X cs (cmd_body X c y) w) (carry X (c :: cs) k).
Proof. reflexivity. Qed.

(** Carrying two pieces in sequence is carrying one after the other. *)
Lemma carry_gseq (cs : list cmd) (b rest : gen X) (w : World X) :
  carry X cs (gseq b rest) w
  = and_then (carry X cs b w) (carry X cs rest).
Proof.
  destruct cs as [|c cs']; [apply collect_gseq|].
  revert w. induction b as [|e|y k IH|A a k IH]; intros w.
  - rewrite carry_stop, and_then_nil. reflexivity.
  - rewrite carry_raise. reflexivity.
  - cbn [gseq]. rewrite !carry_yield, and_then_assoc.
    apply and_then_ext, IH.
  - cbn [gseq]. rewrite !carry_act.
    destruct (perform a w) as [w' x]. apply IH.
Qed.

Lemma cmd_gen_stop (c : cmd) : cmd_gen X c (PyIter Stop) = cmd_tail X c.
Proof. destruct c; reflexivity. Qed.

Lemma cmd_gen_raise (c : cmd) (e : exn) :
  cmd_gen X c (PyIter (GRaise e)) = GRaise e.
Proof. destruct c; reflexivity. Qed.

Lemma cmd_gen_yield (c : cmd) (y : item X) (k : gen X) :
  cmd_gen X c (PyIter (Yield y k))
  = gseq (cmd_body X c y) (cmd_gen X c (PyIter k)).
Proof. destruct c; reflexivity. Qed.

Lemma cmd_gen_act (c : cmd) {A : Type} (a : eff X A) (k : A -> gen X) :
  cmd_gen X c (PyIter (GAct a k))
  = GAct a (fun x => cmd_gen X c (PyIter (k x))).
Proof. destruct c; reflexivity. Qed.

(** One more command in front: its output carried through the rest is its
    input carried through all, then its own items carried through the
    rest. *)
Lemma carry_cmd_gen (c : cmd) (cs : list cmd) (s : gen X) (w : World X) :
  carry X cs (cmd_gen X c (PyIter s)) w
  = and_then (carry X (c :: cs) s w) (carry X cs (cmd_tail X c)).
Proof.
  revert w. induction s as [|e|y k IH|A a k IH]; intros w.
  - rewrite cmd_gen_stop, carry_stop, and_then_nil. reflexivity.
  - rewrite cmd_gen_raise, !carry_raise. reflexivity.
  - rewrite cmd_gen_yield, carry_gseq, carry_yield, and_then_assoc.
    apply and_then_ext, IH.
  - rewrite cmd_gen_act, !carry_act.
    destruct (perform a w) as [w' x]. apply IH.
Qed.

Lemma collect_stream_of (cs : list cmd) :
  forall (s : gen X) (w : World X),
    collect (stream_of X cs s) w = and_then (carry X cs s w) (sources X cs).
Proof.
  induction cs as [|c cs' IH]; intros s w.
  - cbn [stream_of foldl carry sources]. rewrite and_then_stop. reflexivity.
  - change (stream_of X (c :: cs') s)
      with (stream_of X cs' (cmd_gen X c (PyIter s))).
    rewrite IH, carry_cmd_gen, and_then_assoc. reflexivity.
Qed.

Lemma cmd_body_one_or_raise (c : cmd) (y : item X) (w : World X) :
  one_or_raise (collect (cmd_body X c y) w).
Proof.
  destruct c as [filename params|lines|expression|filename params| |];
    cbn [cmd_body].
  - exact I.
  - destruct y; exact I.
  - destruct y as [d|]; [|exact I]. unfold filter_body.
    destruct (df_query X d expression); exact I.
  - unfold to_body. cbn [fst snd]. destruct filename as [filename|]; [|exact I].
    destruct (OsPath.splitext filename) as [fname fextension].
    destruct (CONFIG_to_functions !! fextension) as [to_func|]; [|exact I].
    destruct (pd_params_of X params) as [e|pd_params]; [exact I|].
    unfold call_to_func.
    destruct (pd_params !! "buf"); [exact I|].
    destruct y as [d|]; [|exact I].
    cbn [collect perform].
    destruct (df_to X to_func (fs w) d filename pd_params) as [fs' [e|]];
      exact I.
  - destruct y; exact I.
  - destruct y; exact I.
Qed.

Lemma cmd_body_single (c : cmd) (y : item X) : single (cmd_body X c y).
Proof.
  destruct c as [filename params|lines|expression|filename params| |];
    cbn [cmd_body].
  - constructor.
  - destruct y; repeat constructor.
  - destruct y as [d|]; [|constructor]. unfold filter_body.
    destruct (df_query X d expression); repeat constructor.
  - unfold to_body. cbn [fst snd].
    destruct filename as [filename|]; [|constructor].
    destruct (OsPath.splitext filename) as [fname fextension].
    destruct (CONFIG_to_functions !! fextension) as [to_func|]; [|constructor].
    destruct (pd_params_of X params) as [e|pd_params]; [constructor|].
    unfold call_to_func.
    destruct (pd_params !! "buf"); [constructor|].
    destruct y as [d|]; [|constructor].
    constructor. intros [e|]; constructor.
  - destruct y; repeat constructor.
  - destruct y; repeat constructor.
Qed.

(** A single piece carried through any commands still gives one item or
    raises. *)
Lemma carry_single (cs : list cmd) :
  forall (b : gen X) (w : World X),
    single b -> one_or_raise (carry X cs b w).
Proof.
  induction cs as [|c cs' IHcs]; intros b w Hb; revert w;
    induction Hb as [e|y|A a k Hk IHk]; intros w.
  - exact I.
  - exact I.
  - cbn [carry collect]. destruct (perform a w) as [w' x]. apply IHk.
  - exact I.
  - rewrite carry_yield.
    rewrite (and_then_ext _ _ (fun w1 => (w1, [], None)))
      by (intros w1; apply carry_stop).
    rewrite and_then_stop. apply IHcs, cmd_body_single.
  - rewrite carry_act. destruct (perform a w) as [w' x]. apply IHk.
Qed.

(** The item of a [read] carried through the later commands: the second
    [isfile] answers as the first did. *)
Lemma carry_read_cmd_body (cs : list cmd) (filename params : string)
    (w : World X) :
  one_or_raise (carry X cs (read_cmd_body X filename params) w).
Proof.
  unfold read_cmd_body. rewrite carry_act. cbn [perform].
  destruct (isfile X (fs w) filename) eqn:Hfile; cbn [negb].
  - rewrite carry_act. cbn [perform]. rewrite Hfile.
    apply carry_single.
    destruct (OsPath.splitext filename) as [fname fextension].
    destruct (pd_params_of X params); [constructor|].
    destruct (CONFIG_read_functions !! fextension); [|constructor].
    constructor. intros [e|df]; constructor.
  - rewrite carry_raise. exact I.
Qed.

(** A run that ends without exception delivers one item for each source. *)
Lemma sources_length (cs : list cmd) :
  forall (w w' : World X) (ys : list (item X)),
    sources X cs w = (w', ys, None) ->
    length ys = length (List.filter is_source cs).
Proof.
  induction cs as [|c cs' IH]; intros w w' ys Hrun.
  - inversion Hrun. reflexivity.
  - cbn [sources] in Hrun.
    destruct c as [filename params| | | | |];
      try (cbn [cmd_tail] in Hrun; rewrite carry_stop, and_then_nil in Hrun;
           apply IH in Hrun; exact Hrun).
    cbn [cmd_tail] in Hrun.
    pose proof (carry_read_cmd_body cs' filename params w) as Hone.
    destruct (carry X cs' (read_cmd_body X filename params) w)
      as [[w1 ys1] [e|]]; cbn [and_then] in Hrun; [discriminate|].
    destruct ys1 as [|y [|? ?]]; try contradiction.
    destruct (sources X cs' w1) as [[w2 ys2] r2] eqn:Hrest.
    inversion Hrun; subst. cbn. f_equal. eapply IH, Hrest.
Qed.

End OrderFacts.

(** C5.  The stream a chain of commands builds, iterated to its end,
    delivers what the item-at-a-time reading [sources] delivers, world,
    items and exception alike: the sources fire in command order, and the
    item of each is carried through all the later commands before anything
    else is produced.  Each command turns one incoming item into exactly
    one outgoing item or raises, and a run that ends without exception
    delivers exactly one item for each source; so the item that the Nth
    source produced is the Nth item delivered, and no command reorders. *)
Theorem stream_order_preserved (X : Externals) (cs : list cmd) (w : World X) :
  collect (stream_of X cs Stop) w = sources X cs w /\
  (forall s : gen X,
     collect (stream_of X cs s) w = and_then (carry X cs s w) (sources X cs)) /\
  (forall (c : cmd) (y : item X) (w1 : World X),
     one_or_raise (collect (cmd_body X c y) w1)) /\
  (forall (w' : World X) (ys : list (item X)),
     collect (stream_of X cs Stop) w = (w', ys, None) ->
     length ys = length (List.filter is_source cs)).
Proof.
  assert (Hrun : collect (stream_of X cs Stop) w = sources X cs w).
  { rewrite collect_stream_of, carry_stop, and_then_nil. reflexivity. }
  split; [exact Hrun|].
  split; [intros s; apply collect_stream_of|].
  split; [apply cmd_body_one_or_raise|].
  intros w' ys Hend. rewrite Hrun in Hend.
  eapply sources_length, Hend.
Qed.

Lemma stream_order_preserved_witness :
  collect (stream_of Toy.externals
             [Read "a.csv" ""; Read "b.csv" ""; Filter "x > 1"] Stop)
    Toy.world0
  = sources Toy.externals
      [Read "a.csv" ""; Read "b.csv" ""; Filter "x > 1"] Toy.world0 /\
  length [IDf (X := Toy.externals) "A"; IDf (X := Toy.externals) "B"]
  = length (List.filter is_source
              [Read "a.csv" ""; Read "b.csv" ""; Filter "x > 1"]).
Proof.
  pose proof (stream_order_preserved Toy.externals
                [Read "a.csv" ""; Read "b.csv" ""; Filter "x > 1"]
                Toy.world0) as (Hrun & _ & _ & Hcount).
  split; [exact Hrun|].
  apply (Hcount (mk_world (X := Toy.externals) (fs Toy.world0) 60
                   [(Stdout, "A" +:+ PyStr.nl); (Stdout, "B" +:+ PyStr.nl)])).
  reflexivity.
Defined.

(** ** The model at work *)

Example run_read_head :
  run (process_commands
         (cmd_stage Toy.externals <$> [Read "a.csv" ""; Head 3])) Toy.world0
  = (mk_world (fs Toy.world0) 60 [(Stdout, "A" +:+ PyStr.nl)], inr tt).
Proof. reflexivity. Qed.

Example run_read_bad_filter_to :
  run (process_commands
         (cmd_stage Toy.externals
            <$> [Read "a.csv" ""; Filter "bad syntax ("; To (Some "out.csv") ""]))
    Toy.world0
  = (Toy.world0, inl (mk_exn (LibraryError "SyntaxError") "invalid syntax")).
Proof. reflexivity. Qed.

(** A write placed before a read of the same file is seen by that read:
    the second source fires after the first item went all the way. *)
Example run_read_to_read :
  collect (stream_of Toy.externals
             [Read "a.csv" ""; To (Some "c.csv") ""; Read "c.csv" ""] Stop)
    Toy.world0
  = (mk_world (X := Toy.externals)
       [("c.csv", "A"); ("a.csv", "A"); ("b.csv", "B")] 60 [],
     [INone; IDf (X := Toy.externals) "A"], None).
Proof. reflexivity. Qed.

(** A second [=] in a segment: [split] gives three pieces and the value is
    the second one. *)
Example args_to_dict_second_eq :
  args_to_dict Toy.externals "a=x=y" = inr {[ "a" := VStr "x" ]}.
Proof. reflexivity. Qed.

Example args_to_dict_trailing_bar :
  args_to_dict Toy.externals "a=1|" = inl index_error.
Proof. reflexivity. Qed.

(** * Further properties of the code *)

(** ** The loose parameter parser, beyond the format *)

Section ParserMore.
Context (X : Externals).
Import PyStr Loose.

(** A text with the separator has at least two pieces. *)
Lemma split_with (sep : ascii) (s : string) :
  contains sep s = true ->
  exists a b rest, split sep s = a :: b :: rest.
Proof.
  induction s as [|c r IH]; simpl; [discriminate|].
  destruct (Ascii.eqb c sep) eqn:Hc; simpl.
  - intros _. pose proof (split_not_nil sep r) as Hne.
    destruct (split sep r) as [|b rest]; [congruence|]. eauto.
  - intros Hr. destruct (IH Hr) as (a & b & rest & ->). eauto.
Qed.

Lemma args_to_dict_step_with_eq (d : kwargs) (p : string) :
  contains "=" p = true -> exists d', args_to_dict_step X d p = inr d'.
Proof.
  intros Hp. destruct (split_with _ _ Hp) as (a & b & rest & Hsplit).
  unfold args_to_dict_step. rewrite Hsplit. simpl.
  destruct (literal_eval X b); eauto.
Qed.

Lemma args_to_dict_loop_fails (ps : list string) :
  forall (d : kwargs) (e : exn),
    args_to_dict_loop X d ps = inl e ->
    e = index_error /\ exists p, p ∈ ps /\ contains "=" p = false.
Proof.
  induction ps as [|q rest IH]; intros d e Hloop; [discriminate|].
  simpl in Hloop.
  destruct (args_to_dict_step X d q) as [e'|d'] eqn:Hstep.
  - inversion Hloop; subst. split; [eapply args_to_dict_step_error, Hstep|].
    exists q. split; [left|].
    destruct (contains "=" q) eqn:Hq; [|reflexivity].
    destruct (args_to_dict_step_with_eq d q Hq) as [d' Hd']. congruence.
  - destruct (IH _ _ Hloop) as (He & p & Hin & Hp).
    split; [exact He|]. exists p. split; [right; exact Hin|exact Hp].
Qed.

(** A string with an [=] is not empty, so it is split. *)
Lemma args_to_dict_with_eq (arg : string) :
  contains "=" arg = true ->
  args_to_dict X arg = args_to_dict_loop X ∅ (split "|" arg).
Proof. destruct arg; [discriminate|reflexivity]. Qed.

End ParserMore.

(** X1.  On a string that is not empty, [args_to_dict] raises exactly when
    one of the [|]-separated segments has no [=]; the exception is then the
    [IndexError] of [splitted[1]], and no other exception ever leaves the
    function. *)
Theorem args_to_dict_raises_iff (X : Externals) (arg : string) :
  arg <> EmptyString ->
  ((exists e, args_to_dict X arg = inl e) <->
   (exists p, p ∈ PyStr.split "|" arg /\ PyStr.contains "=" p = false)) /\
  (forall e, args_to_dict X arg = inl e -> e = index_error).
Proof.
  intros Hne. destruct arg as [|c r]; [congruence|].
  unfold args_to_dict. split; [split|].
  - intros [e He]. eapply args_to_dict_loop_fails, He.
  - intros (p & Hin & Hp). exists index_error.
    eapply args_to_dict_loop_without_eq; eassumption.
  - intros e He. eapply args_to_dict_loop_fails, He.
Qed.

Lemma args_to_dict_raises_iff_witness :
  (exists e, args_to_dict Toy.externals "sep=;|header" = inl e) <->
  (exists p, p ∈ PyStr.split "|" "sep=;|header"
             /\ PyStr.contains "=" p = false).
Proof.
  refine (proj1 (args_to_dict_raises_iff Toy.externals "sep=;|header" _)).
  discriminate.
Defined.

(** X2.  A second [=] in a segment cuts the value: for a segment
    [key=value=rest] the entry of [key] is made from [value] alone, and
    [rest] is dropped without any error. *)
Theorem args_to_dict_value_cut_at_eq
    (X : Externals) (key value rest : string) :
  Loose.plain key ->
  Loose.plain value ->
  PyStr.contains "|" rest = false ->
  args_to_dict X (key +:+ String "=" (value +:+ String "=" rest))
  = inr {[ key := Loose.literal_or_text X value ]}.
Proof.
  intros [Hkb Hke] [Hvb Hve] Hrest.
  rewrite args_to_dict_with_eq
    by (rewrite contains_app; simpl; apply orb_true_r).
  rewrite split_without
    by (rewrite contains_app, Hkb; simpl;
        rewrite contains_app, Hvb; simpl; exact Hrest).
  simpl. unfold args_to_dict_step.
  rewrite (split_app _ _ _ Hke), (split_app _ _ _ Hve). simpl.
  unfold Loose.literal_or_text.
  destruct (literal_eval X value); reflexivity.
Qed.

Lemma args_to_dict_value_cut_at_eq_witness :
  args_to_dict Toy.externals "sep=a=b" = inr {[ "sep" := VStr "a" ]}.
Proof.
  apply (args_to_dict_value_cut_at_eq Toy.externals "sep" "a" "b");
    repeat split; reflexivity.
Defined.

(** ** Whole chains of commands *)

Section ChainFacts.
Context {X : Externals}.

(** A run of a chain, read off the item-at-a-time reference. *)
Lemma run_chain (cs : list cmd) (w : World X) :
  run (process_commands (cmd_stage X <$> cs)) w
  = match sources X cs w with
    | (w', _, Some e) => (w', inl e)
    | (w', _, None) => (w', inr tt)
    end.
Proof.
  rewrite run_process_commands_cmds, collect_stream_of, carry_stop,
    and_then_nil.
  reflexivity.
Qed.

Lemma sources_app_no_source (cs0 cs : list cmd) (w : World X) :
  List.filter is_source cs0 = [] ->
  sources X (cs0 ++ cs) w = sources X cs w.
Proof.
  induction cs0 as [|c rest IH]; intros Hno; [reflexivity|].
  destruct c; try discriminate Hno;
    cbn [app sources cmd_tail]; rewrite carry_stop, and_then_nil;
    apply IH, Hno.
Qed.

Lemma carry_read_missing (cs : list cmd) (filename params : string)
    (w : World X) :
  isfile X (fs w) filename = false ->
  carry X cs (read_cmd_body X filename params) w
  = (w, [], Some (file_not_found filename)).
Proof.
  intros Hfile. unfold read_cmd_body. rewrite carry_act. cbn [perform].
  rewrite Hfile. cbn [negb]. apply carry_raise.
Qed.

(** A read that goes well hands its one dataset to the later commands. *)
Lemma carry_read_ok (cs : list cmd) (filename params : string)
    (r : reader) (kw : kwargs) (d : Dataset X) (w : World X) :
  isfile X (fs w) filename = true ->
  args_to_dict X params = inr kw ->
  CONFIG_read_functions !! (OsPath.splitext filename).2 = Some r ->
  pd_read X r (fs w) filename kw = inr d ->
  carry X cs (read_cmd_body X filename params) w
  = carry X cs (Yield (IDf d) Stop) w.
Proof.
  intros Hfile Hkw Hr Hd. unfold read_cmd_body.
  rewrite carry_act. cbn [perform]. rewrite Hfile. cbn [negb].
  rewrite carry_act. cbn [perform]. rewrite Hfile.
  rewrite pd_params_of_args_to_dict, Hkw.
  destruct (OsPath.splitext filename) as [fname fextension].
  cbn [snd] in Hr. rewrite Hr, carry_act. cbn [perform]. rewrite Hd.
  reflexivity.
Qed.

Lemma carry_one_item (c : cmd) (cs : list cmd) (y : item X) (w : World X) :
  carry X (c :: cs) (Yield y Stop) w = carry X cs (cmd_body X c y) w.
Proof.
  rewrite carry_yield.
  rewrite (and_then_ext _ _ (fun w1 => (w1, [], None)))
    by (intros w1; apply carry_stop).
  apply and_then_stop.
Qed.

End ChainFacts.


(** X4.  A chain without any [read] does nothing at all and ends without
    error, whatever its options are: no file is looked at, nothing is
    printed or written, no option is checked. *)
Theorem chain_without_read_is_silent
    (X : Externals) (cs : list cmd) (w : World X) :
  List.filter is_source cs = [] ->
  run (process_commands (cmd_stage X <$> cs)) w = (w, inr tt).
Proof.
  intros Hno. rewrite run_chain.
  rewrite <- (app_nil_r cs), sources_app_no_source by exact Hno.
  reflexivity.
Qed.

Lemma chain_without_read_is_silent_witness :
  run (process_commands
         (cmd_stage Toy.externals
            <$> [Filter "bad syntax ("; To None "x"; Head 3])) Toy.world0
  = (Toy.world0, inr tt).
Proof.
  apply (chain_without_read_is_silent Toy.externals). reflexivity.
Defined.

(** X5.  When the file of the first [read] of a chain does not exist, the
    run ends with its [FileNotFoundError] and nothing else happened: no
    later command ran, not even a later [read] of a file that exists. *)
Theorem missing_file_aborts_chain
    (X : Externals) (cs0 cs : list cmd) (filename params : string)
    (w : World X) :
  List.filter is_source cs0 = [] ->
  isfile X (fs w) filename = false ->
  run (process_commands
         (cmd_stage X <$> (cs0 ++ Read filename params :: cs)%list)) w
  = (w, inl (file_not_found filename)).
Proof.
  intros Hno Hfile.
  rewrite run_chain, sources_app_no_source by exact Hno.
  cbn [sources cmd_tail]. rewrite carry_read_missing by exact Hfile.
  reflexivity.
Qed.

Lemma missing_file_aborts_chain_witness :
  run (process_commands
         (cmd_stage Toy.externals
            <$> ([Info] ++ Read "missing.csv" ""
                   :: [Read "a.csv" ""; To (Some "out.csv") ""])%list))
    Toy.world0
  = (Toy.world0, inl (file_not_found "missing.csv")).
Proof.
  apply (missing_file_aborts_chain Toy.externals [Info]); reflexivity.
Defined.

(** X6.  When [df.query] raises on the dataset a [read] produced, the run
    ends with that exception before anything is printed and before any
    later command sees the dataset: a [to] after the failing [filter]
    writes nothing. *)
Theorem failing_filter_aborts_chain
    (X : Externals) (cs : list cmd) (filename params expression : string)
    (r : reader) (kw : kwargs) (d : Dataset X) (e : exn) (w : World X) :
  isfile X (fs w) filename = true ->
  args_to_dict X params = inr kw ->
  CONFIG_read_functions !! (OsPath.splitext filename).2 = Some r ->
  pd_read X r (fs w) filename kw = inr d ->
  df_query X d expression = inl e ->
  run (process_commands
         (cmd_stage X <$> Read filename params :: Filter expression :: cs)) w
  = (w, inl e).
Proof.
  intros Hfile Hkw Hr Hd Hq. rewrite run_chain. cbn [sources cmd_tail].
  rewrite (carry_read_ok _ _ _ r kw d) by assumption.
  rewrite carry_one_item. cbn [cmd_body]. unfold filter_body. rewrite Hq.
  rewrite carry_raise. reflexivity.
Qed.

Lemma failing_filter_aborts_chain_witness :
  run (process_commands
         (cmd_stage Toy.externals
            <$> Read "a.csv" "" :: Filter "bad syntax ("
                  :: [To (Some "out.csv") ""])) Toy.world0
  = (Toy.world0, inl (mk_exn (LibraryError "SyntaxError") "invalid syntax")).
Proof.
  apply (failing_filter_aborts_chain Toy.externals _ "a.csv" ""
           "bad syntax (" pd_read_csv ∅ "A"); reflexivity.
Defined.

(** X7.  [head] passes [None] on, not the dataset: a [head], [filter],
    [info] or [print] placed after a [head] raises [AttributeError] on its
    first item, after the [head] printed its rows; nothing after it runs. *)
Theorem command_after_head_raises
    (X : Externals) (cs : list cmd) (c : cmd) (name : string)
    (filename params : string) (lines : Z)
    (r : reader) (kw : kwargs) (d : Dataset X) (w : World X) :
  item_attribute c = Some name ->
  isfile X (fs w) filename = true ->
  args_to_dict X params = inr kw ->
  CONFIG_read_functions !! (OsPath.splitext filename).2 = Some r ->
  pd_read X r (fs w) filename kw = inr d ->
  run (process_commands
         (cmd_stage X <$> Read filename params :: Head lines :: c :: cs)) w
  = (mk_world (fs w) (max_rows w)
       (console w
        ++ [(Stdout, df_str X (max_rows w) (df_head X d lines) +:+ PyStr.nl)]),
     inl (no_attribute name)).
Proof.
  intros Hattr Hfile Hkw Hr Hd. rewrite run_chain. cbn [sources cmd_tail].
  rewrite (carry_read_ok _ _ _ r kw d) by assumption.
  rewrite carry_one_item. cbn [cmd_body head_body].
  rewrite carry_act. cbn [perform]. rewrite carry_act. cbn [perform].
  rewrite carry_one_item.
  destruct c; inversion Hattr; subst;
    cbn [cmd_body head_body filter_body info_body print_body];
    rewrite carry_raise; reflexivity.
Qed.

Lemma command_after_head_raises_witness :
  run (process_commands
         (cmd_stage Toy.externals
            <$> Read "a.csv" "" :: Head 3 :: Info :: [])) Toy.world0
  = (mk_world (X := Toy.externals) (fs Toy.world0) 60
       [(Stdout, "A" +:+ PyStr.nl)],
     inl (no_attribute "info")).
Proof.
  apply (command_after_head_raises Toy.externals [] Info "info" "a.csv" "" 3
           pd_read_csv ∅ "A"); reflexivity.
Defined.

(** ** The commands on a stream of datasets *)

Section SinkFacts.
Context {X : Externals}.

(** The world after some lines went to standard output. *)
Lemma world_printed_nil (w : World X) :
  mk_world (fs w) (max_rows w) (console w ++ []) = w.
Proof. destruct w. cbn. rewrite app_nil_r. reflexivity. Qed.

(** [filter] on datasets whose queries go well, whatever follows them. *)
Lemma collect_filter_prefix (expression : string)
    (ds ds' : list (Dataset X)) (rest : list (item X)) :
  Forall2 (fun d d' => df_query X d expression = inr d') ds ds' ->
  forall w : World X,
    collect (for_gen (yield_all ((IDf <$> ds) ++ rest))
               (filter_body X expression)) w
    = let w1 :=
        mk_world (fs w) (max_rows w)
          (console w
           ++ ((fun d' => (Stdout, df_str X (max_rows w) d' +:+ PyStr.nl))
                 <$> ds')) in
      let '(w2, ys, r) :=
        collect (for_gen (yield_all rest) (filter_body X expression)) w1 in
      (w2, ((IDf <$> ds') ++ ys)%list, r).
Proof.
  induction 1 as [|d d' ds ds' Hq Hrest IH]; intros w.
  - cbn [fmap list_fmap app]. rewrite world_printed_nil.
    destruct (collect _ w) as [[w2 ys] r]. reflexivity.
  - cbn [fmap list_fmap app yield_all for_gen filter_body].
    rewrite Hq. cbn [gseq collect perform]. rewrite IH.
    cbn [fs max_rows console]. rewrite <- app_assoc. cbn [app].
    destruct (collect _ _) as [[w2 ys] r]. reflexivity.
Qed.

End SinkFacts.

(** X8.  [head] treats the datasets of its stream one by one, in order: for
    each it prints [str(df.head(lines))] and a newline on standard output
    and yields [None]; it touches neither the file system nor the display
    option, and ends without exception. *)
Theorem head_cmd_prints_each
    (X : Externals) (lines : Z) (ds : list (Dataset X)) (w : World X) :
  collect (head_cmd X (PyIter (yield_all (IDf <$> ds))) lines) w
  = (mk_world (fs w) (max_rows w)
       (console w
        ++ ((fun d =>
               (Stdout, df_str X (max_rows w) (df_head X d lines) +:+ PyStr.nl))
              <$> ds)),
     (fun _ => INone) <$> ds, None).
Proof.
  unfold head_cmd, for_in. cbn [iter]. revert w.
  induction ds as [|d rest IH]; intros w.
  - cbn. rewrite world_printed_nil. reflexivity.
  - cbn [fmap list_fmap yield_all for_gen head_body gseq collect perform].
    rewrite IH. cbn [fs max_rows console]. rewrite <- app_assoc.
    reflexivity.
Qed.

(** X9.  [filter] queries the datasets of its stream in order, prints each
    result and yields it; at the first dataset on which [df.query] raises
    it stops with that exception: the results before it were yielded and
    printed, the datasets after it are never queried. *)
Theorem filter_cmd_stops_at_first_failure
    (X : Externals) (expression : string) (ds ds' : list (Dataset X))
    (w : World X) :
  Forall2 (fun d d' => df_query X d expression = inr d') ds ds' ->
  let printed :=
    mk_world (fs w) (max_rows w)
      (console w
       ++ ((fun d' => (Stdout, df_str X (max_rows w) d' +:+ PyStr.nl))
             <$> ds')) in
  collect (filter_cmd X (PyIter (yield_all (IDf <$> ds))) expression) w
  = (printed, IDf <$> ds', None) /\
  forall (bad : Dataset X) (e : exn) (later : list (item X)),
    df_query X bad expression = inl e ->
    collect (filter_cmd X
               (PyIter (yield_all ((IDf <$> ds) ++ IDf bad :: later)))
               expression) w
    = (printed, IDf <$> ds', Some e).
Proof.
  intros Hok printed. unfold filter_cmd, for_in. cbn [iter]. split.
  - rewrite <- (app_nil_r (IDf <$> ds)).
    rewrite (collect_filter_prefix _ _ _ _ Hok). cbn.
    rewrite app_nil_r. reflexivity.
  - intros bad e later Hbad.
    rewrite (collect_filter_prefix _ _ _ _ Hok).
    cbn [yield_all for_gen filter_body]. rewrite Hbad. cbn.
    rewrite app_nil_r. reflexivity.
Qed.

Lemma filter_cmd_stops_at_first_failure_witness :
  collect (filter_cmd Toy.externals
             (PyIter (yield_all (@IDf Toy.externals <$> ["A"; "B"]))) "x > 1") Toy.world0
  = (mk_world (X := Toy.externals) (fs Toy.world0) 60
       [(Stdout, "A" +:+ PyStr.nl); (Stdout, "B" +:+ PyStr.nl)],
     [IDf (X := Toy.externals) "A"; IDf (X := Toy.externals) "B"], None).
Proof.
  refine (proj1 (filter_cmd_stops_at_first_failure Toy.externals "x > 1"
                   ["A"; "B"] ["A"; "B"] Toy.world0 _)).
  repeat constructor.
Defined.



(** X11.  A key [buf] among the loose parameters of [to] clashes with the
    keyword the code passes itself: [to] raises [TypeError] at the first
    item of its stream and writes nothing. *)
Theorem to_cmd_buf_param_clashes
    (X : Externals) (filename params : string) (wr : writer) (kw : kwargs)
    (v : pyval) (s : gen X) (w : World X) :
  CONFIG_to_functions !! (OsPath.splitext filename).2 = Some wr ->
  args_to_dict X params = inr kw ->
  kw !! "buf" = Some v ->
  exists e : exn,
    exn_cls e = TypeError /\
    collect (to_cmd X (PyIter s) (Some filename, params)) w
    = match first_item s w with
      | (w', Some _, _) => (w', [], Some e)
      | (w', None, r) => (w', [], r)
      end.
Proof.
  intros Hwr Hkw Hbuf. eexists. split; [|].
  2: { unfold to_cmd, for_in. cbn [iter].
       rewrite <- collect_for_gen_raise. apply collect_for_gen_ext.
       intros y. unfold to_body. cbn [fst snd].
       rewrite pd_params_of_args_to_dict, Hkw.
       destruct (OsPath.splitext filename) as [fname fextension].
       cbn [snd] in Hwr. rewrite Hwr. unfold call_to_func. rewrite Hbuf.
       reflexivity. }
  reflexivity.
Qed.

Lemma to_cmd_buf_param_clashes_witness :
  exists e : exn,
    exn_cls e = TypeError /\
    collect (to_cmd Toy.externals (PyIter (yield_all [@IDf Toy.externals "A"]))
               (Some "out.csv", "buf=1")) Toy.world0
    = (Toy.world0, [], Some e).
Proof.
  apply (to_cmd_buf_param_clashes Toy.externals "out.csv" "buf=1" to_csv
           {[ "buf" := VInt 1 ]} (VInt 1) (yield_all [@IDf Toy.externals "A"]) Toy.world0);
    reflexivity.
Defined.

(** X12.  [info] writes for each dataset of its stream the text of
    [df.info()] and then a newline of its own, and yields [None]. *)
Theorem info_cmd_prints_each
    (X : Externals) (ds : list (Dataset X)) (w : World X) :
  collect (info_cmd X (PyIter (yield_all (IDf <$> ds))) tt) w
  = (mk_world (fs w) (max_rows w)
       (console w
        ++ (ds ≫= fun d => [(Stdout, df_info X d); (Stdout, PyStr.nl)])),
     (fun _ => INone) <$> ds, None).
Proof.
  unfold info_cmd, for_in. cbn [iter]. revert w.
  induction ds as [|d rest IH]; intros w.
  - cbn. rewrite world_printed_nil. reflexivity.
  - cbn [fmap list_fmap yield_all for_gen info_body gseq collect perform].
    rewrite IH. cbn [fs max_rows console mbind list_bind app].
    rewrite <- !app_assoc. reflexivity.
Qed.

(** X13.  [print] sets the pandas option [display.max_rows] to the row
    count plus one before it prints each dataset, and leaves it set: after
    the stream the option is that of the last dataset. *)
Theorem print_cmd_leaves_max_rows
    (X : Externals) (ds : list (Dataset X)) (w : World X) :
  collect (print_cmd X (PyIter (yield_all (IDf <$> ds))) tt) w
  = (mk_world (fs w)
       (foldl (fun _ d => df_rows X d + 1) (max_rows w) ds)
       (console w
        ++ ((fun d => (Stdout, df_to_string X d +:+ PyStr.nl)) <$> ds)),
     (fun _ => INone) <$> ds, None).
Proof.
  unfold print_cmd, for_in. cbn [iter]. revert w.
  induction ds as [|d rest IH]; intros w.
  - cbn. rewrite world_printed_nil. reflexivity.
  - cbn [fmap list_fmap yield_all for_gen print_body gseq collect perform].
    rewrite IH. cbn [fs max_rows console foldl]. rewrite <- app_assoc.
    reflexivity.
Qed.



(** ** What a chain of commands never does *)

Section FootprintFacts.
Context {X : Externals}.

Lemma only_gseq (allowed : kind -> bool) (g1 g2 : gen X) :
  only allowed g1 -> only allowed g2 -> only allowed (gseq g1 g2).
Proof.
  intros H1 H2. induction H1 as [|e|y k Hk IH|A a k Ha Hk IH]; cbn [gseq].
  - exact H2.
  - constructor.
  - constructor. exact IH.
  - constructor; [exact Ha|exact IH].
Qed.

Lemma only_for_gen (allowed : kind -> bool) (s : gen X)
    (body : item X -> gen X) :
  only allowed s -> (forall y, only allowed (body y)) ->
  only allowed (for_gen s body).
Proof.
  intros Hs Hbody. induction Hs as [|e|y k Hk IH|A a k Ha Hk IH];
    cbn [for_gen].
  - constructor.
  - constructor.
  - apply only_gseq; [apply Hbody|exact IH].
  - constructor; [exact Ha|exact IH].
Qed.

Ltac split_kinds :=
  repeat match goal with
         | H : Forall _ (_ :: _) |- _ => apply Forall_cons in H as [? H]
         end.

Ltac walk_body :=
  repeat first
    [ apply only_stop
    | apply only_raise
    | apply only_yield
    | apply only_act; [simpl kind_of; assumption | intros ?]
    | match goal with
      | |- only _ (match ?x with _ => _ end) => destruct x
      | |- only _ (if ?x then _ else _) => destruct x
      end ].

Lemma cmd_body_only (allowed : kind -> bool) (c : cmd) (y : item X) :
  Forall (fun k => allowed k = true) (cmd_kinds c) ->
  only allowed (cmd_body X c y).
Proof.
  intros Hall. destruct c; cbn [cmd_kinds] in Hall; split_kinds;
    cbn [cmd_body];
    unfold head_body, filter_body, to_body, info_body, print_body,
      call_to_func;
    cbn [fst snd]; walk_body.
Qed.

Lemma cmd_tail_only (allowed : kind -> bool) (c : cmd) :
  Forall (fun k => allowed k = true) (cmd_kinds c) ->
  only allowed (cmd_tail X c).
Proof.
  intros Hall. destruct c; cbn [cmd_kinds] in Hall; split_kinds;
    cbn [cmd_tail]; unfold read_cmd_body; walk_body.
Qed.

Lemma cmd_gen_only (allowed : kind -> bool) (c : cmd) (s : gen X) :
  Forall (fun k => allowed k = true) (cmd_kinds c) ->
  only allowed s ->
  only allowed (cmd_gen X c (PyIter s)).
Proof.
  intros Hall Hs.
  pose proof (cmd_tail_only allowed c Hall) as Htail.
  pose proof (fun y => cmd_body_only allowed c y Hall) as Hbody.
  destruct c.
  - exact (only_gseq _ _ _ Hs Htail).
  - exact (only_for_gen _ _ _ Hs Hbody).
  - exact (only_for_gen _ _ _ Hs Hbody).
  - exact (only_for_gen _ _ _ Hs Hbody).
  - exact (only_for_gen _ _ _ Hs Hbody).
  - exact (only_for_gen _ _ _ Hs Hbody).
Qed.

Lemma stream_of_only (allowed : kind -> bool) (cs : list cmd) :
  Forall (fun c => Forall (fun k => allowed k = true) (cmd_kinds c)) cs ->
  forall s : gen X, only allowed s -> only allowed (stream_of X cs s).
Proof.
  induction 1 as [|c rest Hc Hrest IH]; intros s Hs; [exact Hs|].
  apply IH, cmd_gen_only; assumption.
Qed.



(** A generator that makes no call of the writing kind leaves the file
    system as it was. *)
Lemma collect_not_to (g : gen X) :
  only not_to g ->
  forall w : World X, fs (collect g w).1.1 = fs w.
Proof.
  induction 1 as [|e|y k Hk IH|A a k Ha Hk IH]; intros w;
    try reflexivity.
  - cbn [collect]. specialize (IH w).
    destruct (collect k w) as [[w' ys] r]. exact IH.
  - cbn [collect].
    assert (Hw : fs (perform a w).1 = fs w).
    { destruct a as [[|] text| | |wr d buf kw| |]; try reflexivity.
      discriminate Ha. }
    destruct (perform a w) as [w' x]. rewrite IH. exact Hw.
Qed.

Lemma run_chain_world (cs : list cmd) (w : World X) :
  (run (process_commands (cmd_stage X <$> cs)) w).1
  = (collect (stream_of X cs Stop) w).1.1.
Proof.
  rewrite run_process_commands_cmds.
  destruct (collect (stream_of X cs Stop) w) as [[w' ys] [e|]]; reflexivity.
Qed.

End FootprintFacts.


(** X16.  Only [to] changes the file system: a chain without [to] leaves
    it exactly as it found it, however the run ends. *)
Theorem chain_without_to_keeps_files
    (X : Externals) (cs : list cmd) (w : World X) :
  List.filter is_to cs = [] ->
  fs (run (process_commands (cmd_stage X <$> cs)) w).1 = fs w.
Proof.
  intros Hno. rewrite run_chain_world. apply collect_not_to.
  apply stream_of_only; [|constructor].
  induction cs as [|c rest IH]; [constructor|].
  destruct c; try discriminate Hno;
    (constructor; [repeat constructor|apply IH, Hno]).
Qed.

Lemma chain_without_to_keeps_files_witness :
  fs (run (process_commands
             (cmd_stage Toy.externals
                <$> [Read "a.csv" ""; Filter "x > 1"; Print; Info]))
        Toy.world0).1
  = fs Toy.world0.
Proof.
  apply (chain_without_to_keeps_files Toy.externals). reflexivity.
Defined.

(** ** The extensions the commands look up *)

Section ExtensionFacts.
Import PyStr.

Lemma length_app_string (a r : string) :
  String.length (a +:+ r) = (String.length a + String.length r)%nat.
Proof. induction a as [|c a IH]; simpl; [reflexivity|]. rewrite IH. reflexivity. Qed.

Lemma append_empty (s : string) : s +:+ EmptyString = s.
Proof.
  induction s as [|c s IH]; [reflexivity|].
  change (String c (s +:+ EmptyString) = String c s). f_equal. exact IH.
Qed.

Lemma substring_all (r : string) : String.substring 0 (String.length r) r = r.
Proof. induction r as [|c r IH]; simpl; [reflexivity|]. rewrite IH. reflexivity. Qed.

Lemma substring_prefix (a r : string) :
  String.substring 0 (String.length a) (a +:+ r) = a.
Proof.
  induction a as [|c a IH]; simpl.
  - destruct r; reflexivity.
  - rewrite IH. reflexivity.
Qed.

Lemma substring_suffix (a r : string) :
  String.substring (String.length a) (String.length r) (a +:+ r) = r.
Proof.
  induction a as [|c a IH]; simpl; [apply substring_all|exact IH].
Qed.

(** [rfind]: either the character does not occur and the default comes
    back, or the text splits at its last occurrence. *)
Lemma rfind_from_spec (c : ascii) (s : string) :
  forall i last : Z,
    (rfind_from c s i last = last /\ contains c s = false) \/
    (exists a b, s = a +:+ String c b /\
                 rfind_from c s i last = i + len a /\
                 contains c b = false).
Proof.
  induction s as [|d r IH]; intros i last; simpl.
  - left. split; reflexivity.
  - destruct (IH (i + 1) (if Ascii.eqb d c then i else last))
      as [[Hres Hno]|(a & b & -> & Hres & Hno)].
    + destruct (Ascii.eqb d c) eqn:Hd.
      * right. apply Ascii.eqb_eq in Hd as ->.
        exists EmptyString, r. split; [reflexivity|].
        split; [|exact Hno]. rewrite Hres. unfold len. simpl. lia.
      * left. split; [exact Hres|exact Hno].
    + right. exists (String d a), b. split; [reflexivity|].
      split; [|exact Hno]. rewrite Hres. unfold len. simpl. lia.
Qed.

Lemma rfind_lower (c : ascii) (s : string) : -1 <= rfind c s.
Proof.
  unfold rfind.
  destruct (rfind_from_spec c s 0 (-1)) as [[-> _]|(a & b & _ & -> & _)];
    unfold len; lia.
Qed.

(** [splitext]: the path is cut at its last dot, or not at all. *)
Lemma splitext_spec (p : string) :
  OsPath.splitext p = (p, EmptyString) \/
  exists a b, p = a +:+ String "." b /\ contains "." b = false /\
              OsPath.splitext p = (a, String "." b).
Proof.
  unfold OsPath.splitext.
  destruct (_ && _) eqn:Hcut; [|left; reflexivity].
  apply andb_true_iff in Hcut as [Hlt _]. apply Z.ltb_lt in Hlt.
  pose proof (rfind_lower "/" p) as Hsep.
  unfold rfind in *.
  destruct (rfind_from_spec "." p 0 (-1))
    as [[Hdot _]|(a & b & Hp & Hdot & Hno)]; [lia|].
  right. exists a, b. split; [exact Hp|]. split; [exact Hno|].
  rewrite Hdot. unfold slice, len. subst p.
  rewrite length_app_string. cbn [String.length].
  replace (Z.to_nat (0 + Z.of_nat (String.length a) - 0))
    with (String.length a) by lia.
  replace (Z.to_nat (0 + Z.of_nat (String.length a)))
    with (String.length a) by lia.
  replace (Z.to_nat (Z.of_nat (String.length a + S (String.length b))
                     - (0 + Z.of_nat (String.length a))))
    with (String.length (String "." b)) by (cbn [String.length]; lia).
  cbn [Z.to_nat]. rewrite substring_prefix, substring_suffix. reflexivity.
Qed.

Lemma splitext_without_dot (p : string) :
  contains "." p = false -> OsPath.splitext p = (p, EmptyString).
Proof.
  intros Hno.
  destruct (splitext_spec p) as [H|(a & b & -> & _ & _)]; [exact H|].
  rewrite contains_app in Hno. simpl in Hno.
  rewrite orb_true_r in Hno. discriminate.
Qed.

End ExtensionFacts.


(** X18.  The extension [read] and [to] look up is what [os.path.splitext]
    (posixpath) cuts off the file name: nothing, or the part from the last
    dot on; root and extension put together give the file name back. *)
Theorem splitext_cuts_at_last_dot (p : string) :
  (OsPath.splitext p).1 +:+ (OsPath.splitext p).2 = p /\
  ((OsPath.splitext p).2 = EmptyString \/
   exists b, (OsPath.splitext p).2 = String "." b /\
             PyStr.contains "." b = false).
Proof.
  destruct (splitext_spec p) as [->|(a & b & Hp & Hno & ->)]; cbn [fst snd].
  - split; [apply append_empty|left; reflexivity].
  - split; [symmetry; exact Hp|]. right. eauto.
Qed.

(** X19.  A file name without any dot has the empty extension, which is in
    no table: [read] of such a file, when it exists and the loose
    parameters parse, raises [KeyError] on the empty string and yields
    nothing. *)
Theorem read_cmd_without_extension
    (X : Externals) (filename params : string) (kw : kwargs) (w : World X) :
  PyStr.contains "." filename = false ->
  isfile X (fs w) filename = true ->
  args_to_dict X params = inr kw ->
  collect (read_cmd_body X filename params) w
  = (w, [], Some (mk_exn KeyError EmptyString)).
Proof.
  intros Hno Hfile Hkw.
  rewrite collect_read_cmd_body, Hfile, Hkw, splitext_without_dot by exact Hno.
  reflexivity.
Qed.

Lemma read_cmd_without_extension_witness :
  collect (read_cmd_body Toy.externals "Makefile" "")
    (mk_world (X := Toy.externals) [("Makefile", "all:")] 60 [])
  = (mk_world (X := Toy.externals) [("Makefile", "all:")] 60 [], [],
     Some (mk_exn KeyError EmptyString)).
Proof.
  apply (read_cmd_without_extension Toy.externals "Makefile" "" ∅);
    reflexivity.
Defined.


